(** * Aurie: attach / detach orchestration of the module lifecycle

    Shallow embedding of [AurieMain.cpp] (functions [ArProcessDetach],
    [ArProcessAttach] and [DllMain]).  The three entry points are written
    in a small state-and-trace monad: the state holds the two globals the
    file manipulates ([g_LdrModuleList] and [g_ArInitialImage]); the trace
    records every call that leaves the framework (module hooks, the image
    mapper, the memory tracker, the Win32 calls).

    The framework routines the file calls but does not define
    ([MdpDispatchEntry], [MdpPurgeMarkedModules], [MdpUnmapImage], ...)
    live in [framework/]; they are modelled from the specification and
    marked as such. *)

From Stdlib Require Import List String ZArith Bool Arith Lia Permutation.
Import ListNotations.

(** ** Data model *)

(** Modelled from the spec: the Status Code of [framework.hpp] (section 7,
    "Taxonomy"): success, or one of a closed set of failure kinds. *)
Inductive AurieStatus : Type :=
| Success
| NotFound
| AlreadyExists
| InvalidParameter
| InsufficientMemory
| ModuleInitializationFailed
| Timeout
| Unsupported
| Unknown.

(** Modelled from the spec: [AurieSuccess], the test "is this status the
    success kind". *)
Definition AurieSuccess (s : AurieStatus) : bool :=
  match s with
  | Success => true
  | _ => false
  end.

(** Addresses of list nodes.  [std::list] never moves its elements, so
    [&entry] identifies a Module Record for as long as it is linked. *)
Definition ptr := nat.

(** The three lifecycle stages a hook can belong to. *)
Inductive Stage : Type := Preinitialize | Initialize | Unload.

(** A module hook: called with the record's address and its image path,
    answers with a status.  A hook is followed for the status it answers
    only; what else the code of a mod does is outside this development. *)
Definition AurieEntry := ptr -> string -> AurieStatus.

Record AurieMemoryAllocation : Type := {
  AllocationBase : Z;
  OwnerModule : ptr
}.

Record ModuleFlags : Type := {
  IsPreloaded : bool;
  IsInitialized : bool;
  MarkedForPurge : bool
}.

Record AurieModule : Type := {
  ImagePath : string;
  ImageBase : Z;
  Flags : ModuleFlags;
  ModulePreinitialize : option AurieEntry;
  ModuleInitialize : option AurieEntry;
  ModuleUnload : option AurieEntry;
  MemoryAllocations : list AurieMemoryAllocation
}.

(** Everything the framework does that is visible from outside. *)
Inductive Event : Type :=
| EvMessageBox (text : string)
| EvHook (stage : Stage) (module : ptr) (result : AurieStatus)
| EvUnmapImage (module : ptr)
| EvFreeMemory (owner : ptr) (base : Z)
| EvResumeProcess
| EvWaitForWindow
| EvWaitForInputIdle
| EvSleep
| EvDisableThreadLibraryCalls
| EvCreateThread
| EvFreeLibraryAndExitThread.

(** The globals.  [next_node] is the allocator's next free address. *)
Record World : Type := {
  g_LdrModuleList : list (ptr * AurieModule);
  g_ArInitialImage : option ptr;
  next_node : ptr
}.

(** State at process attach: empty registry, null initial image. *)
Definition initial_world : World :=
  {| g_LdrModuleList := []; g_ArInitialImage := None; next_node := 1 |}.

(** What the process and the file system answer; fixed for one run.
    - [host_image_name]: the path [QueryFullProcessImageNameW] writes,
      [None] when the call fails;
    - [host_create_module]: status of [MdpCreateModule] on the host's
      image, and the record it builds;
    - [host_image_folder]: status of [MdpGetImageFolder];
    - [host_folder_images]: the files found under [mods/aurie], each with
      the image mapper's verdict and the record it would give;
    - [host_is_suspended]: status of [ElIsProcessSuspended] and the
      value of [is_process_suspended] after the call;
    - [host_subsystem]: [current_process_subsystem] after
      [PpGetImageSubsystem];
    - [host_window_appears], [host_input_idle]: whether the two blocking
      waits ever return;
    - [host_end_key]: what the [i]-th [GetAsyncKeyState(VK_END)] answers;
    - [host_create_thread]: whether [CreateThread] gives a handle. *)
Record Host : Type := {
  host_image_name : option string;
  host_create_module : AurieStatus * AurieModule;
  host_image_folder : AurieStatus;
  host_folder_images : list (AurieStatus * AurieModule);
  host_is_suspended : AurieStatus * bool;
  host_subsystem : Z;
  host_window_appears : bool;
  host_input_idle : bool;
  host_end_key : nat -> Z;
  host_create_thread : bool
}.

(** ** The monad

    An action maps the globals to the events it emitted and to how it
    ended: it returned, it ran into undefined behaviour ([Faulted]: a
    null or dangling pointer read, an invalidated iterator), or it is
    still waiting ([Blocked]: a wait that does not return, or the polls
    the model follows are used up). *)

Inductive Outcome (A : Type) : Type :=
| Returned (a : A) (w : World)
| Faulted
| Blocked (w : World).

Arguments Returned {A} a w.
Arguments Faulted {A}.
Arguments Blocked {A} w.

Definition Act (A : Type) : Type := World -> list Event * Outcome A.

Definition ret {A} (a : A) : Act A := fun w => ([], Returned a w).

Definition bind {A B} (m : Act A) (k : A -> Act B) : Act B :=
  fun w =>
    match m w with
    | (t, Returned a w') => let (t', o) := k a w' in (t ++ t', o)
    | (t, Faulted) => (t, Faulted)
    | (t, Blocked w') => (t, Blocked w')
    end.

Declare Scope act_scope.
Delimit Scope act_scope with act.
Notation "x <- m ;; k" := (bind m (fun x => k))
  (at level 100, m at next level, right associativity) : act_scope.
Notation "m ;; k" := (bind m (fun _ => k))
  (at level 100, right associativity) : act_scope.
Local Open Scope act_scope.

Definition emit (e : Event) : Act unit := fun w => ([e], Returned tt w).
Definition fault {A} : Act A := fun _ => ([], Faulted).
Definition block {A} : Act A := fun w => ([], Blocked w).
Definition get : Act World := fun w => ([], Returned w w).
Definition put (w : World) : Act unit := fun _ => ([], Returned tt w).

(** Run an action over each element of a list, in order. *)
Fixpoint for_each {A} (body : A -> Act unit) (l : list A) : Act unit :=
  match l with
  | [] => ret tt
  | a :: l' => body a ;; for_each body l'
  end.

(** ** Nodes of the registry *)

Definition addrs (w : World) : list ptr := map fst (g_LdrModuleList w).

Fixpoint find_node (p : ptr) (l : list (ptr * AurieModule)) : option AurieModule :=
  match l with
  | [] => None
  | (q, m) :: l' => if Nat.eqb p q then Some m else find_node p l'
  end.

Fixpoint update_node (p : ptr) (f : AurieModule -> AurieModule)
    (l : list (ptr * AurieModule)) : list (ptr * AurieModule) :=
  match l with
  | [] => []
  | (q, m) :: l' =>
      if Nat.eqb p q then (q, f m) :: l' else (q, m) :: update_node p f l'
  end.

(** [*p]: reading through a pointer that is null or no longer linked is
    undefined behaviour. *)
Definition deref (p : ptr) : Act AurieModule :=
  fun w =>
    match find_node p (g_LdrModuleList w) with
    | Some m => ([], Returned m w)
    | None => ([], Faulted)
    end.

(** [p->field = ...]: in-place update of the record at [p]. *)
Definition modify (p : ptr) (f : AurieModule -> AurieModule) : Act unit :=
  fun w =>
    ([], Returned tt
           {| g_LdrModuleList := update_node p f (g_LdrModuleList w);
              g_ArInitialImage := g_ArInitialImage w;
              next_node := next_node w |}).

Definition set_IsPreloaded (m : AurieModule) : AurieModule :=
  {| ImagePath := ImagePath m; ImageBase := ImageBase m;
     Flags := {| IsPreloaded := true;
                 IsInitialized := IsInitialized (Flags m);
                 MarkedForPurge := MarkedForPurge (Flags m) |};
     ModulePreinitialize := ModulePreinitialize m;
     ModuleInitialize := ModuleInitialize m;
     ModuleUnload := ModuleUnload m;
     MemoryAllocations := MemoryAllocations m |}.

Definition set_IsInitialized (m : AurieModule) : AurieModule :=
  {| ImagePath := ImagePath m; ImageBase := ImageBase m;
     Flags := {| IsPreloaded := IsPreloaded (Flags m);
                 IsInitialized := true;
                 MarkedForPurge := MarkedForPurge (Flags m) |};
     ModulePreinitialize := ModulePreinitialize m;
     ModuleInitialize := ModuleInitialize m;
     ModuleUnload := ModuleUnload m;
     MemoryAllocations := MemoryAllocations m |}.

Definition set_MarkedForPurge (m : AurieModule) : AurieModule :=
  {| ImagePath := ImagePath m; ImageBase := ImageBase m;
     Flags := {| IsPreloaded := IsPreloaded (Flags m);
                 IsInitialized := IsInitialized (Flags m);
                 MarkedForPurge := true |};
     ModulePreinitialize := ModulePreinitialize m;
     ModuleInitialize := ModuleInitialize m;
     ModuleUnload := ModuleUnload m;
     MemoryAllocations := MemoryAllocations m |}.

Definition clear_MemoryAllocations (m : AurieModule) : AurieModule :=
  {| ImagePath := ImagePath m; ImageBase := ImageBase m;
     Flags := Flags m;
     ModulePreinitialize := ModulePreinitialize m;
     ModuleInitialize := ModuleInitialize m;
     ModuleUnload := ModuleUnload m;
     MemoryAllocations := [] |}.

(** ** Iterating the registry

    [for (auto& entry : g_LdrModuleList)]: the iterator is the address of
    the current node and [++it] follows the live list.  [todo] is what the
    iterator has still to visit; after each body the model looks the
    current node up in the live list and faults when it has been unlinked
    or when what follows it is no longer [todo] (the body restructured the
    list under the iterator; the C++ loop would go on over a list that
    grew behind the iterator, the model does not follow such a run). *)

Fixpoint suffix_after (p : ptr) (l : list ptr) : option (list ptr) :=
  match l with
  | [] => None
  | q :: l' => if Nat.eqb p q then Some l' else suffix_after p l'
  end.

Definition same_addrs (a b : list ptr) : bool :=
  if list_eq_dec Nat.eq_dec a b then true else false.

Fixpoint range_for (body : ptr -> Act unit) (todo : list ptr) : Act unit :=
  match todo with
  | [] => ret tt
  | p :: todo' =>
      body p ;;
      w <- get ;;
      match suffix_after p (addrs w) with
      | Some rest =>
          if same_addrs rest todo' then range_for body todo' else fault
      | None => fault
      end
  end.

Definition for_each_module (body : ptr -> Act unit) : Act unit :=
  w <- get ;;
  range_for body (addrs w).

(** ** Framework routines called by [AurieMain.cpp] *)

(** Modelled from the spec: [MdpAddModuleToList] of [framework/]
    (section 3, "Module Registry").  The Registry is an ordered sequence
    whose insertion order is load order: the record is linked at the
    end, at a fresh address, and that address is returned. *)
Definition MdpAddModuleToList (m : AurieModule) : Act ptr :=
  fun w =>
    ([], Returned (next_node w)
           {| g_LdrModuleList := g_LdrModuleList w ++ [(next_node w, m)];
              g_ArInitialImage := g_ArInitialImage w;
              next_node := S (next_node w) |}).

(** Modelled from the spec: [MdpDispatchEntry] of [framework/] (section
    4.3).  For a Record not already marked for purge the hook is invoked
    if present; a missing hook is automatic success.  A Record already
    marked gets no invocation; the spec does not name the status reported
    then, the model reports the module-initialization failure kind, so
    that the caller leaves the stage flags of such a Record alone.
    [stage] only labels the trace event. *)
Definition MdpDispatchEntry (stage : Stage) (p : ptr)
    (Entry : option AurieEntry) : Act AurieStatus :=
  m <- deref p ;;
  if MarkedForPurge (Flags m) then ret ModuleInitializationFailed
  else
    match Entry with
    | None => ret Success
    | Some f =>
        emit (EvHook stage p (f p (ImagePath m))) ;;
        ret (f p (ImagePath m))
    end.

(** Modelled from the spec: [MdpMarkModuleForPurge] of [framework/]:
    sets the Record's [MarkedForPurge] flag, nothing else. *)
Definition MdpMarkModuleForPurge (p : ptr) : Act unit :=
  modify p set_MarkedForPurge.

(** Modelled from the spec: [MdIsImageInitialized] of [framework/]: the
    Record's [IsInitialized] flag. *)
Definition MdIsImageInitialized (p : ptr) : Act bool :=
  m <- deref p ;;
  ret (IsInitialized (Flags m)).

Definition remove_allocation (base : Z) (m : AurieModule) : AurieModule :=
  {| ImagePath := ImagePath m; ImageBase := ImageBase m;
     Flags := Flags m;
     ModulePreinitialize := ModulePreinitialize m;
     ModuleInitialize := ModuleInitialize m;
     ModuleUnload := ModuleUnload m;
     MemoryAllocations :=
       filter (fun a => negb (Z.eqb (AllocationBase a) base))
              (MemoryAllocations m) |}.

(** Modelled from the spec: [MmpFreeMemory] of [framework/] (section 4.5,
    [Free(owner, handle)]).  Frees the block when the owner's table lists
    it, and removes the table entry only when asked to; a handle the
    table does not list is reported as a failure. *)
Definition MmpFreeMemory (owner : ptr) (base : Z)
    (RemoveTableEntry : bool) : Act AurieStatus :=
  m <- deref owner ;;
  if existsb (fun a => Z.eqb (AllocationBase a) base) (MemoryAllocations m)
  then
    emit (EvFreeMemory owner base) ;;
    (if RemoveTableEntry then modify owner (remove_allocation base)
     else ret tt) ;;
    ret Success
  else ret NotFound.

(** Modelled from the spec: [FreeAll(owner)] of the Memory Ownership
    Tracker (section 4.5): frees every allocation the module owns, then
    empties its table. *)
Definition FreeAll (p : ptr) : Act unit :=
  m <- deref p ;;
  for_each (fun a => MmpFreeMemory p (AllocationBase a) false ;; ret tt)
           (MemoryAllocations m) ;;
  modify p clear_MemoryAllocations.

Definition unlink (p : ptr) : Act unit :=
  fun w =>
    ([], Returned tt
           {| g_LdrModuleList :=
                filter (fun n => negb (Nat.eqb (fst n) p)) (g_LdrModuleList w);
              g_ArInitialImage := g_ArInitialImage w;
              next_node := next_node w |}).

(** Modelled from the spec: [MdpUnmapImage] of [framework/] (sections 4.4
    and 4.7).  Invokes the [Unload] hook when asked to (best effort: its
    status does not stop the unmap), unmaps the image, runs [FreeAll] for
    the Record, and unlinks the Record only when asked to.  The two flags
    are named after the comments at the call site ("don't remove it from
    the list", "calls the ModuleUnload functions"). *)
Definition MdpUnmapImage (p : ptr) (RemoveFromList CallUnloadRoutine : bool)
    : Act AurieStatus :=
  m <- deref p ;;
  st <- (if CallUnloadRoutine then MdpDispatchEntry Unload p (ModuleUnload m)
         else ret Success) ;;
  emit (EvUnmapImage p) ;;
  FreeAll p ;;
  (if RemoveFromList then unlink p else ret tt) ;;
  ret st.

Definition purgeable (initial : option ptr) (n : ptr * AurieModule) : bool :=
  MarkedForPurge (Flags (snd n)) &&
  negb (match initial with Some p => Nat.eqb (fst n) p | None => false end).

(** Modelled from the spec: [MdpPurgeMarkedModules] of [framework/]
    (section 4.4).  One scan partitions the Registry into "keep" and
    "marked for purge"; every purged Record is unmapped without its
    unload hook and its allocations are released; the Registry becomes
    the "keep" partition in its original order.  The initial image is
    never purged. *)
Definition MdpPurgeMarkedModules : Act AurieStatus :=
  w <- get ;;
  for_each (fun n => MdpUnmapImage (fst n) false false ;; ret tt)
           (filter (purgeable (g_ArInitialImage w)) (g_LdrModuleList w)) ;;
  w' <- get ;;
  put {| g_LdrModuleList :=
           filter (fun n => negb (purgeable (g_ArInitialImage w) n))
                  (g_LdrModuleList w);
         g_ArInitialImage := g_ArInitialImage w';
         next_node := next_node w' |} ;;
  ret Success.

Section Hosted.

Variable host : Host.

(** Modelled from the spec: [MdpCreateModule] of [framework/]: builds the
    Module Record of an image already in memory; what it answers for the
    host's own image is the host's business. *)
Definition MdpCreateModule (path : string) : Act (AurieStatus * AurieModule) :=
  ret (host_create_module host).

(** Modelled from the spec: [MdpGetImageFolder] of [framework/], a path
    utility (out of scope, section 1): only its status matters here. *)
Definition MdpGetImageFolder (p : ptr) : Act AurieStatus :=
  deref p ;;
  ret (host_image_folder host).

(** Modelled from the spec: the Module Loader (section 4.1).  A candidate
    the image mapper rejects, or whose path is already mapped, leaves the
    Registry untouched; otherwise its Record is appended.  No hook runs. *)
Definition MdpMapImage (c : AurieStatus * AurieModule) : Act AurieStatus :=
  if negb (AurieSuccess (fst c)) then ret (fst c)
  else
    w <- get ;;
    if existsb (fun n => String.eqb (ImagePath (snd n)) (ImagePath (snd c)))
               (g_LdrModuleList w)
    then ret AlreadyExists
    else MdpAddModuleToList (snd c) ;; ret Success.

Fixpoint map_images (StopOnFailure : bool)
    (cs : list (AurieStatus * AurieModule)) : Act unit :=
  match cs with
  | [] => ret tt
  | c :: cs' =>
      st <- MdpMapImage c ;;
      if StopOnFailure && negb (AurieSuccess st) then ret tt
      else map_images StopOnFailure cs'
  end.

(** Modelled from the spec: [MdpMapFolder] of [framework/], the Folder
    Scanner (section 4.2): the Loader is invoked on each image found,
    individual failures do not halt the scan unless asked to. *)
Definition MdpMapFolder (Recursive StopOnFailure : bool) : Act unit :=
  map_images StopOnFailure (host_folder_images host).

(** The Process Synchronization Gate and the Win32 calls. *)
Definition ElIsProcessSuspended : Act (AurieStatus * bool) :=
  ret (host_is_suspended host).

Definition ElpResumeProcess : Act unit := emit EvResumeProcess.

Definition PpGetImageSubsystem : Act Z := ret (host_subsystem host).

Definition IMAGE_SUBSYSTEM_WINDOWS_GUI : Z := 2.

Definition ElWaitForCurrentProcessWindow : Act unit :=
  emit EvWaitForWindow ;;
  if host_window_appears host then ret tt else block.

Definition WaitForInputIdle : Act unit :=
  emit EvWaitForInputIdle ;;
  if host_input_idle host then ret tt else block.

Definition MessageBoxA (text : string) : Act unit := emit (EvMessageBox text).

Definition QueryFullProcessImageNameW : Act (option string) :=
  ret (host_image_name host).

Definition set_g_ArInitialImage (p : option ptr) : Act unit :=
  fun w =>
    ([], Returned tt
           {| g_LdrModuleList := g_LdrModuleList w;
              g_ArInitialImage := p;
              next_node := next_node w |}).

Definition clear_g_LdrModuleList : Act unit :=
  fun w =>
    ([], Returned tt
           {| g_LdrModuleList := [];
              g_ArInitialImage := g_ArInitialImage w;
              next_node := next_node w |}).

(** ** [ArProcessDetach] *)

(** Lines 21-30, the body of the loop: skip the initial image, unmap
    the others without unlinking them. *)
Definition detach_entry (entry : ptr) : Act unit :=
  w <- get ;;
  match g_ArInitialImage w with
  | Some init =>
      if Nat.eqb entry init then ret tt
      else MdpUnmapImage entry false true ;; ret tt
  | None => MdpUnmapImage entry false true ;; ret tt
  end.

(** Lines 19-31: unmap every module but the initial image. *)
Definition detach_unload_modules : Act unit :=
  for_each_module detach_entry.

(** Lines 33-44: free the initial image's allocations, then drop the
    entries.  Reading [g_ArInitialImage->MemoryAllocations] through a
    null pointer faults. *)
Definition detach_free_persistent : Act unit :=
  w <- get ;;
  match g_ArInitialImage w with
  | None => fault
  | Some init =>
      m <- deref init ;;
      for_each (fun allocation =>
                  MmpFreeMemory init (AllocationBase allocation) false ;;
                  ret tt)
               (MemoryAllocations m) ;;
      modify init clear_MemoryAllocations
  end.

Definition ArProcessDetach : Act unit :=
  detach_unload_modules ;;
  detach_free_persistent ;;
  set_g_ArInitialImage None ;;
  clear_g_LdrModuleList.

(** ** [DllMain] *)

Definition DLL_PROCESS_ATTACH : Z := 1.
Definition DLL_PROCESS_DETACH : Z := 0.

(** [CreateThread]: the worker is started, not run, by this call. *)
Definition CreateThread : Act bool :=
  if host_create_thread host then emit EvCreateThread ;; ret true
  else ret false.

(** [CloseHandle] on the worker's handle: nothing the model follows. *)
Definition CloseHandle : Act unit := ret tt.

Definition DllMain (fdwReason lpvReserved : Z) : Act bool :=
  if Z.eqb fdwReason DLL_PROCESS_ATTACH then
    emit EvDisableThreadLibraryCalls ;;
    created_thread <- CreateThread ;;
    if negb created_thread then ret false
    else CloseHandle ;; ret true
  else if Z.eqb fdwReason DLL_PROCESS_DETACH then
    if negb (Z.eqb lpvReserved 0) then ret true
    else ArProcessDetach ;; ret true
  else ret true.

(** [FreeLibraryAndExitThread]: as the comment at its call site says, it
    "calls DllMain with DLL_PROCESS_DETACH, which calls ArProcessDetach";
    a library freed by [FreeLibrary] gets a null reserved argument. *)
Definition FreeLibraryAndExitThread : Act unit :=
  emit EvFreeLibraryAndExitThread ;;
  DllMain DLL_PROCESS_DETACH 0 ;;
  ret tt.

(** ** [ArProcessAttach] *)

(** Lines 130-139, the body of the preload loop. *)
Definition preload_entry (entry : ptr) : Act unit :=
  m <- deref entry ;;
  last_status <- MdpDispatchEntry Preinitialize entry (ModulePreinitialize m) ;;
  if negb (AurieSuccess last_status) then MdpMarkModuleForPurge entry
  else modify entry set_IsPreloaded.

(** Lines 128-140. *)
Definition attach_preload_loop : Act unit :=
  for_each_module preload_entry.

(** Lines 146-166. *)
Definition attach_sync_gate : Act unit :=
  r <- ElIsProcessSuspended ;;
  (if negb (AurieSuccess (fst r)) || snd r then ElpResumeProcess
   else ret tt) ;;
  current_process_subsystem <- PpGetImageSubsystem ;;
  (if Z.eqb current_process_subsystem IMAGE_SUBSYSTEM_WINDOWS_GUI
   then ElWaitForCurrentProcessWindow else ret tt) ;;
  WaitForInputIdle.

(** Lines 171-184, the body of the initialization loop. *)
Definition init_entry (entry : ptr) : Act unit :=
  initialized <- MdIsImageInitialized entry ;;
  if initialized then ret tt
  else
    m <- deref entry ;;
    last_status <- MdpDispatchEntry Initialize entry (ModuleInitialize m) ;;
    if negb (AurieSuccess last_status) then MdpMarkModuleForPurge entry
    else modify entry set_IsInitialized.

(** Lines 169-185. *)
Definition attach_init_loop : Act unit :=
  for_each_module init_entry.

Definition Sleep : Act unit := emit EvSleep.

(** Lines 191-194: [while (!GetAsyncKeyState(VK_END)) Sleep(1);].
    [fuel] bounds the number of polls the model follows; [i] counts the
    polls made so far. *)
Fixpoint wait_for_end_key (fuel i : nat) : Act unit :=
  match fuel with
  | 0 => block
  | S fuel' =>
      if negb (Z.eqb (host_end_key host i) 0) then ret tt
      else Sleep ;; wait_for_end_key fuel' (S i)
  end.

Definition ArProcessAttach (fuel : nat) : Act unit :=
  process_name <- QueryFullProcessImageNameW ;;
  match process_name with
  | None => MessageBoxA "Failed to query process path!"
  | Some process_name =>
      r <- MdpCreateModule process_name ;;
      if negb (AurieSuccess (fst r)) then
        MessageBoxA "Failed to create initial module!"
      else
        p <- MdpAddModuleToList (snd r) ;;
        set_g_ArInitialImage (Some p) ;;
        st <- MdpGetImageFolder p ;;
        if negb (AurieSuccess st) then
          MessageBoxA "Failed to get initial folder!"
        else
          MdpMapFolder true false ;;
          attach_preload_loop ;;
          MdpPurgeMarkedModules ;;
          attach_sync_gate ;;
          attach_init_loop ;;
          MdpPurgeMarkedModules ;;
          wait_for_end_key fuel 0 ;;
          FreeLibraryAndExitThread
  end.

End Hosted.

(** ** Stages of the attach sequence

    [ArProcessAttach] cut at line 125: the core setup, which answers
    whether the mods were mapped ([true]) or a fatal message was shown
    and the worker returned ([false]), and the dispatch sequence that
    follows it.  [ArProcessAttach_stages] below shows that the function
    is the one followed by the other. *)

Definition attach_core_setup (host : Host) : Act bool :=
  process_name <- QueryFullProcessImageNameW host ;;
  match process_name with
  | None => MessageBoxA "Failed to query process path!" ;; ret false
  | Some process_name =>
      r <- MdpCreateModule host process_name ;;
      if negb (AurieSuccess (fst r)) then
        MessageBoxA "Failed to create initial module!" ;; ret false
      else
        p <- MdpAddModuleToList (snd r) ;;
        set_g_ArInitialImage (Some p) ;;
        st <- MdpGetImageFolder host p ;;
        if negb (AurieSuccess st) then
          MessageBoxA "Failed to get initial folder!" ;; ret false
        else
          MdpMapFolder host true false ;; ret true
  end.

Definition attach_dispatch (host : Host) (fuel : nat) : Act unit :=
  attach_preload_loop ;;
  MdpPurgeMarkedModules ;;
  attach_sync_gate host ;;
  attach_init_loop ;;
  MdpPurgeMarkedModules ;;
  wait_for_end_key host fuel 0 ;;
  FreeLibraryAndExitThread host.

(** The three ways the core setup can fail. *)
Inductive SetupFailure : Type :=
| QueryPathFailed
| CreateInitialModuleFailed
| GetInitialFolderFailed.

Definition setup_failure (host : Host) : option SetupFailure :=
  match host_image_name host with
  | None => Some QueryPathFailed
  | Some _ =>
      if negb (AurieSuccess (fst (host_create_module host)))
      then Some CreateInitialModuleFailed
      else if negb (AurieSuccess (host_image_folder host))
           then Some GetInitialFolderFailed
           else None
  end.

Definition fatal_message (f : SetupFailure) : string :=
  match f with
  | QueryPathFailed => "Failed to query process path!"
  | CreateInitialModuleFailed => "Failed to create initial module!"
  | GetInitialFolderFailed => "Failed to get initial folder!"
  end.

(** ** Reading worlds and traces *)

Definition with_list (w : World) (l : list (ptr * AurieModule)) : World :=
  {| g_LdrModuleList := l;
     g_ArInitialImage := g_ArInitialImage w;
     next_node := next_node w |}.

Definition lookup (p : ptr) (w : World) : option AurieModule :=
  find_node p (g_LdrModuleList w).

Definition marked_for_purge (p : ptr) (w : World) : Prop :=
  exists m, lookup p w = Some m /\ MarkedForPurge (Flags m) = true.

(** Allocations one can still reach from the Registry. *)
Definition reachable_allocations (w : World) : list AurieMemoryAllocation :=
  flat_map (fun n => MemoryAllocations (snd n)) (g_LdrModuleList w).

(** A record with its three lifecycle flags blanked: what is left is
    everything but the flags. *)
Definition erase_flags (m : AurieModule) : AurieModule :=
  {| ImagePath := ImagePath m; ImageBase := ImageBase m;
     Flags := {| IsPreloaded := false; IsInitialized := false;
                 MarkedForPurge := false |};
     ModulePreinitialize := ModulePreinitialize m;
     ModuleInitialize := ModuleInitialize m;
     ModuleUnload := ModuleUnload m;
     MemoryAllocations := MemoryAllocations m |}.

(** The modules unmapped along a trace, in the order of the unmaps. *)
Fixpoint unmapped (t : list Event) : list ptr :=
  match t with
  | [] => []
  | EvUnmapImage p :: t' => p :: unmapped t'
  | _ :: t' => unmapped t'
  end.

(** The modules whose hook of a given stage ran, in the order of the
    calls. *)
Definition same_stage (a b : Stage) : bool :=
  match a, b with
  | Preinitialize, Preinitialize => true
  | Initialize, Initialize => true
  | Unload, Unload => true
  | _, _ => false
  end.

Fixpoint hooked (stage : Stage) (t : list Event) : list ptr :=
  match t with
  | [] => []
  | EvHook st p _ :: t' =>
      if same_stage st stage then p :: hooked stage t' else hooked stage t'
  | _ :: t' => hooked stage t'
  end.

(** No two linked records share an address, and the allocator has not
    handed out an address it still holds. *)
Definition well_formed (w : World) : Prop :=
  NoDup (addrs w) /\ Forall (fun p => p < next_node w) (addrs w).

(** ** What one iteration does, as functions of the record visited *)

Definition dispatch_status (p : ptr) (m : AurieModule)
    (Entry : option AurieEntry) : AurieStatus :=
  if MarkedForPurge (Flags m) then ModuleInitializationFailed
  else match Entry with
       | None => Success
       | Some f => f p (ImagePath m)
       end.

Definition dispatch_trace (stage : Stage) (p : ptr) (m : AurieModule)
    (Entry : option AurieEntry) : list Event :=
  if MarkedForPurge (Flags m) then []
  else match Entry with
       | None => []
       | Some f => [EvHook stage p (f p (ImagePath m))]
       end.

Definition preload_step (p : ptr) (m : AurieModule) : AurieModule :=
  if AurieSuccess (dispatch_status p m (ModulePreinitialize m))
  then set_IsPreloaded m else set_MarkedForPurge m.

Definition preload_trace (p : ptr) (m : AurieModule) : list Event :=
  dispatch_trace Preinitialize p m (ModulePreinitialize m).

Definition init_step (p : ptr) (m : AurieModule) : AurieModule :=
  if IsInitialized (Flags m) then m
  else if AurieSuccess (dispatch_status p m (ModuleInitialize m))
       then set_IsInitialized m else set_MarkedForPurge m.

Definition init_trace (p : ptr) (m : AurieModule) : list Event :=
  if IsInitialized (Flags m) then []
  else dispatch_trace Initialize p m (ModuleInitialize m).

Definition free_trace (p : ptr) (m : AurieModule) : list Event :=
  map (fun a => EvFreeMemory p (AllocationBase a)) (MemoryAllocations m).

Definition unmap_trace (call_unload : bool) (p : ptr) (m : AurieModule)
    : list Event :=
  (if call_unload then dispatch_trace Unload p m (ModuleUnload m) else [])
  ++ EvUnmapImage p :: free_trace p m.

Definition is_initial (init : option ptr) (p : ptr) : bool :=
  match init with
  | Some q => Nat.eqb p q
  | None => false
  end.

Definition detach_step (init : option ptr) (p : ptr) (m : AurieModule)
    : AurieModule :=
  if is_initial init p then m else clear_MemoryAllocations m.

Definition detach_trace (init : option ptr) (p : ptr) (m : AurieModule)
    : list Event :=
  if is_initial init p then [] else unmap_trace true p m.

Definition over_nodes (step : ptr -> AurieModule -> AurieModule)
    (l : list (ptr * AurieModule)) : list (ptr * AurieModule) :=
  map (fun n => (fst n, step (fst n) (snd n))) l.

Definition trace_of (ev : ptr -> AurieModule -> list Event)
    (l : list (ptr * AurieModule)) : list Event :=
  flat_map (fun n => ev (fst n) (snd n)) l.

Definition purge_trace (init : option ptr) (l : list (ptr * AurieModule))
    : list Event :=
  trace_of (unmap_trace false) (filter (purgeable init) l).

Definition purge_keep (init : option ptr) (l : list (ptr * AurieModule))
    : list (ptr * AurieModule) :=
  filter (fun n => negb (purgeable init n)) l.

Definition needs_resume (host : Host) : bool :=
  negb (AurieSuccess (fst (host_is_suspended host))) ||
  snd (host_is_suspended host).

Definition is_windowed (host : Host) : bool :=
  Z.eqb (host_subsystem host) IMAGE_SUBSYSTEM_WINDOWS_GUI.

Definition gate_trace (host : Host) : list Event :=
  (if needs_resume host then [EvResumeProcess] else []) ++
  (if is_windowed host
   then EvWaitForWindow ::
        (if host_window_appears host then [EvWaitForInputIdle] else [])
   else [EvWaitForInputIdle]).

Definition gate_opens (host : Host) : bool :=
  (negb (is_windowed host) || host_window_appears host) &&
  host_input_idle host.

(** How many times the worker sleeps before it sees the END key down,
    when it does within [fuel] polls starting at poll [i]. *)
Fixpoint sleeps_before_end (host : Host) (fuel i : nat) : option nat :=
  match fuel with
  | 0 => None
  | S fuel' =>
      if negb (Z.eqb (host_end_key host i) 0) then Some 0
      else option_map S (sleeps_before_end host fuel' (S i))
  end.

(** The world the detach sequence leaves behind. *)
Definition torn_down (w : World) : World :=
  {| g_LdrModuleList := [];
     g_ArInitialImage := None;
     next_node := next_node w |}.

(** The registry at the four points of the dispatch sequence: after the
    preload pass, after the purge that follows it, after the
    initialization pass, after the second purge. *)
Definition preloaded (l : list (ptr * AurieModule)) :=
  over_nodes preload_step l.

Definition preload_purged (init : option ptr) (l : list (ptr * AurieModule)) :=
  purge_keep init (preloaded l).

Definition initialized (init : option ptr) (l : list (ptr * AurieModule)) :=
  over_nodes init_step (preload_purged init l).

Definition init_purged (init : option ptr) (l : list (ptr * AurieModule)) :=
  purge_keep init (initialized init l).

(** What the worker does once both passes are over. *)
Definition attach_tail (host : Host) (fuel : nat) : Act unit :=
  wait_for_end_key host fuel 0 ;;
  FreeLibraryAndExitThread host.

(** Whether dispatching [Entry] on record [m] reaches the hook. *)
Definition hook_runs (m : AurieModule) (Entry : option AurieEntry) : bool :=
  negb (MarkedForPurge (Flags m)) &&
  match Entry with Some _ => true | None => false end.

(** ** Sample hosts

    Concrete hosts on which the statements below are exercised. *)

Definition fresh_flags : ModuleFlags :=
  {| IsPreloaded := false; IsInitialized := false; MarkedForPurge := false |}.

Definition sample_module (path : string) (base : Z)
    (pre ini unl : option AurieEntry) (allocs : list AurieMemoryAllocation)
    : AurieModule :=
  {| ImagePath := path; ImageBase := base; Flags := fresh_flags;
     ModulePreinitialize := pre; ModuleInitialize := ini;
     ModuleUnload := unl; MemoryAllocations := allocs |}.

Definition entry_ok : AurieEntry := fun _ _ => Success.
Definition entry_fails : AurieEntry := fun _ _ => ModuleInitializationFailed.

Definition sample_host_image : AurieModule :=
  sample_module "host.exe" 4194304 None None None
    [ {| AllocationBase := 7; OwnerModule := 1 |} ].

Definition sample_mod_A : AurieModule :=
  sample_module "A.dll" 200 (Some entry_fails) (Some entry_ok) (Some entry_ok) [].

Definition sample_mod_B : AurieModule :=
  sample_module "B.dll" 300 (Some entry_ok) (Some entry_ok) (Some entry_ok)
    [ {| AllocationBase := 9; OwnerModule := 3 |} ].

(** A windowed host launched suspended, with two mods [A] (whose preload
    fails) and [B]; the END key goes down at the third poll. *)
Definition sample_host : Host :=
  {| host_image_name := Some "host.exe"%string;
     host_create_module := (Success, sample_host_image);
     host_image_folder := Success;
     host_folder_images := [ (Success, sample_mod_A); (Success, sample_mod_B) ];
     host_is_suspended := (Success, true);
     host_subsystem := 2;
     host_window_appears := true;
     host_input_idle := true;
     host_end_key := fun i => if Nat.eqb i 2 then 1%Z else 0%Z;
     host_create_thread := true |}.

(** The world [sample_host] is in once its mods are mapped. *)
Definition sample_loaded : World :=
  {| g_LdrModuleList :=
       [ (1, sample_host_image); (2, sample_mod_A); (3, sample_mod_B) ];
     g_ArInitialImage := Some 1;
     next_node := 4 |}.

(** The world of [sample_loaded] after one initialization pass. *)
Definition sample_running : World :=
  with_list sample_loaded
    (over_nodes init_step (g_LdrModuleList sample_loaded)).

(** A host whose image path cannot be queried. *)
Definition sample_pathless_host : Host :=
  {| host_image_name := None;
     host_create_module := (Success, sample_host_image);
     host_image_folder := Success;
     host_folder_images := [ (Success, sample_mod_A); (Success, sample_mod_B) ];
     host_is_suspended := (Success, true);
     host_subsystem := 2;
     host_window_appears := true;
     host_input_idle := true;
     host_end_key := fun _ => 1%Z;
     host_create_thread := true |}.

(** A console host whose suspension query fails. *)
Definition sample_console_host : Host :=
  {| host_image_name := Some "host.exe"%string;
     host_create_module := (Success, sample_host_image);
     host_image_folder := Success;
     host_folder_images := [ (Success, sample_mod_B) ];
     host_is_suspended := (Unknown, false);
     host_subsystem := 3;
     host_window_appears := false;
     host_input_idle := true;
     host_end_key := fun _ => 0%Z;
     host_create_thread := true |}.

(** The events of the synchronization gate. *)
Definition is_gate_event (e : Event) : bool :=
  match e with
  | EvResumeProcess | EvWaitForWindow | EvWaitForInputIdle => true
  | _ => false
  end.

(** A trace in which the gate does not show. *)
Definition gate_free (t : list Event) : Prop :=
  forall e, In e t -> is_gate_event e = false.

(** The events of the end of the worker. *)
Definition is_exit_event (e : Event) : bool :=
  match e with
  | EvSleep | EvFreeLibraryAndExitThread => true
  | _ => false
  end.

Definition exit_free (t : list Event) : Prop :=
  forall e, In e t -> is_exit_event e = false.

(** How many times the host process is resumed along a trace. *)
Fixpoint resumes (t : list Event) : nat :=
  match t with
  | [] => 0
  | EvResumeProcess :: t' => S (resumes t')
  | _ :: t' => resumes t'
  end.

(** The world [sample_console_host] is in once its mod is mapped. *)
Definition sample_console_loaded : World :=
  {| g_LdrModuleList := [ (1, sample_host_image); (2, sample_mod_B) ];
     g_ArInitialImage := Some 1;
     next_node := 3 |}.

(** The texts of the message boxes shown along a trace, in order. *)
Fixpoint messages (t : list Event) : list string :=
  match t with
  | [] => []
  | EvMessageBox text :: t' => text :: messages t'
  | _ :: t' => messages t'
  end.

(** A host whose working folder cannot be resolved. *)
Definition sample_folderless_host : Host :=
  {| host_image_name := Some "host.exe"%string;
     host_create_module := (Success, sample_host_image);
     host_image_folder := NotFound;
     host_folder_images := [ (Success, sample_mod_A); (Success, sample_mod_B) ];
     host_is_suspended := (Success, true);
     host_subsystem := 2;
     host_window_appears := true;
     host_input_idle := true;
     host_end_key := fun _ => 1%Z;
     host_create_thread := true |}.

(** The world [sample_folderless_host] is left in. *)
Definition sample_folderless_world : World :=
  {| g_LdrModuleList := [ (1, sample_host_image) ];
     g_ArInitialImage := Some 1;
     next_node := 2 |}.

(** A windowed host, launched suspended, that never shows a window. *)
Definition sample_windowless_host : Host :=
  {| host_image_name := Some "host.exe"%string;
     host_create_module := (Success, sample_host_image);
     host_image_folder := Success;
     host_folder_images := [ (Success, sample_mod_A); (Success, sample_mod_B) ];
     host_is_suspended := (Success, true);
     host_subsystem := 2;
     host_window_appears := false;
     host_input_idle := true;
     host_end_key := fun _ => 1%Z;
     host_create_thread := true |}.

(** [sample_loaded] with the initial-image reference still null. *)
Definition sample_orphaned : World :=
  {| g_LdrModuleList :=
       [ (1, sample_host_image); (2, sample_mod_A); (3, sample_mod_B) ];
     g_ArInitialImage := None;
     next_node := 4 |}.

(** The world an action leaves behind (the world it started from when
    it faults). *)
Definition world_after {A} (m : Act A) (w : World) : World :=
  match snd (m w) with
  | Returned _ w' => w'
  | Faulted => w
  | Blocked w' => w'
  end.

(** A host whose own image exports a Preinitialize hook that fails. *)
Definition sample_self_failing_image : AurieModule :=
  sample_module "host.exe" 4194304 (Some entry_fails) None None [].

Definition sample_self_failing_host : Host :=
  {| host_image_name := Some "host.exe"%string;
     host_create_module := (Success, sample_self_failing_image);
     host_image_folder := Success;
     host_folder_images := [ (Success, sample_mod_B) ];
     host_is_suspended := (Success, false);
     host_subsystem := 3;
     host_window_appears := false;
     host_input_idle := true;
     host_end_key := fun _ => 1%Z;
     host_create_thread := true |}.

(** ** Elementary facts *)

Lemma with_list_same (w : World) : with_list w (g_LdrModuleList w) = w.
Proof. destruct w; reflexivity. Qed.

Lemma find_node_app_skip p pre l :
  ~ In p (map fst pre) -> find_node p (pre ++ l) = find_node p l.
Proof.
  induction pre as [|[q m] pre IH]; simpl; intros H; [reflexivity|].
  destruct (Nat.eqb_spec p q) as [->|_].
  - exfalso; apply H; now left.
  - apply IH; intros Hin; apply H; now right.
Qed.

Lemma update_node_app_skip p f pre l :
  ~ In p (map fst pre) ->
  update_node p f (pre ++ l) = pre ++ update_node p f l.
Proof.
  induction pre as [|[q m] pre IH]; simpl; intros H; [reflexivity|].
  destruct (Nat.eqb_spec p q) as [->|_].
  - exfalso; apply H; now left.
  - f_equal; apply IH; intros Hin; apply H; now right.
Qed.

Lemma update_node_addrs p f l : map fst (update_node p f l) = map fst l.
Proof.
  induction l as [|[q m] l IH]; simpl; [reflexivity|].
  destruct (Nat.eqb p q); simpl; [reflexivity|now rewrite IH].
Qed.

Lemma update_node_fixed p f l m :
  find_node p l = Some m -> f m = m -> update_node p f l = l.
Proof.
  induction l as [|[q m'] l IH]; simpl; intros Hf Hm; [reflexivity|].
  destruct (Nat.eqb p q).
  - injection Hf as ->. now rewrite Hm.
  - f_equal; now apply IH.
Qed.

Lemma update_node_ext p f g l m :
  find_node p l = Some m -> f m = g m -> update_node p f l = update_node p g l.
Proof.
  induction l as [|[q m'] l IH]; simpl; intros Hf Hm; [reflexivity|].
  destruct (Nat.eqb p q).
  - injection Hf as ->. now rewrite Hm.
  - f_equal; now apply IH.
Qed.

Lemma find_node_update_other p q f l :
  p <> q -> find_node q (update_node p f l) = find_node q l.
Proof.
  intros Hpq; induction l as [|[r m] l IH]; simpl; [reflexivity|].
  destruct (Nat.eqb_spec p r) as [->|Hpr]; simpl.
  - destruct (Nat.eqb_spec q r) as [->|_]; [congruence|reflexivity].
  - destruct (Nat.eqb q r); [reflexivity|apply IH].
Qed.

Lemma find_node_some_in p l m :
  find_node p l = Some m -> In (p, m) l.
Proof.
  induction l as [|[q m'] l IH]; simpl; [discriminate|].
  destruct (Nat.eqb_spec p q) as [->|_]; intros H.
  - injection H as ->; now left.
  - right; now apply IH.
Qed.

Lemma find_node_in_nodup p m l :
  NoDup (map fst l) -> In (p, m) l -> find_node p l = Some m.
Proof.
  induction l as [|[q m'] l IH]; simpl; intros Hnd Hin; [contradiction|].
  inversion Hnd as [|? ? Hq Hnd']; subst.
  destruct Hin as [Heq|Hin].
  - injection Heq as -> ->. now rewrite Nat.eqb_refl.
  - destruct (Nat.eqb_spec p q) as [->|_].
    + exfalso; apply Hq. change q with (fst (q, m)). now apply in_map.
    + now apply IH.
Qed.

Lemma find_node_none p l : ~ In p (map fst l) -> find_node p l = None.
Proof.
  induction l as [|[q m] l IH]; simpl; intros H; [reflexivity|].
  destruct (Nat.eqb_spec p q) as [->|_].
  - exfalso; apply H; now left.
  - apply IH; intros Hin; apply H; now right.
Qed.

Lemma find_node_in_addrs p l m :
  find_node p l = Some m -> In p (map fst l).
Proof.
  intros H. apply find_node_some_in in H.
  change p with (fst (p, m)). now apply in_map.
Qed.

Lemma find_node_over_nodes step p l :
  find_node p (over_nodes step l) = option_map (step p) (find_node p l).
Proof.
  induction l as [|[q m] l IH]; simpl; [reflexivity|].
  destruct (Nat.eqb_spec p q) as [->|_]; [reflexivity|apply IH].
Qed.

Lemma over_nodes_addrs step l : map fst (over_nodes step l) = map fst l.
Proof.
  unfold over_nodes. rewrite map_map. reflexivity.
Qed.

Lemma suffix_after_app_skip p pre l :
  ~ In p pre -> suffix_after p (pre ++ p :: l) = Some l.
Proof.
  induction pre as [|q pre IH]; simpl; intros H.
  - now rewrite Nat.eqb_refl.
  - destruct (Nat.eqb_spec p q) as [->|_].
    + exfalso; apply H; now left.
    + apply IH; intros Hin; apply H; now right.
Qed.

Lemma same_addrs_refl l : same_addrs l l = true.
Proof.
  unfold same_addrs. destruct (list_eq_dec Nat.eq_dec l l); congruence.
Qed.

Lemma nodup_app_head {A} (pre : list A) (a : A) l :
  NoDup (pre ++ a :: l) -> ~ In a pre.
Proof.
  intros H Hin. apply NoDup_remove_2 in H. apply H.
  apply in_or_app; now left.
Qed.

(** ** Running actions *)

Lemma bind_returned {A B} (m : Act A) (k : A -> Act B) w t a w' :
  m w = (t, Returned a w') ->
  bind m k w = (t ++ fst (k a w'), snd (k a w')).
Proof.
  intros H. unfold bind. rewrite H. now destruct (k a w').
Qed.

Lemma bind_blocked {A B} (m : Act A) (k : A -> Act B) w t w' :
  m w = (t, Blocked w') -> bind m k w = (t, Blocked w').
Proof. intros H. unfold bind. now rewrite H. Qed.

Lemma bind_faulted {A B} (m : Act A) (k : A -> Act B) w t :
  m w = (t, Faulted) -> bind m k w = (t, Faulted).
Proof. intros H. unfold bind. now rewrite H. Qed.

Lemma deref_found p w m :
  lookup p w = Some m -> deref p w = ([], Returned m w).
Proof. unfold lookup, deref. now intros ->. Qed.

Lemma modify_run p f w :
  modify p f w = ([], Returned tt (with_list w (update_node p f (g_LdrModuleList w)))).
Proof. reflexivity. Qed.

Lemma MdpDispatchEntry_run stage p Entry w m :
  lookup p w = Some m ->
  MdpDispatchEntry stage p Entry w
  = (dispatch_trace stage p m Entry, Returned (dispatch_status p m Entry) w).
Proof.
  intros H. unfold MdpDispatchEntry.
  rewrite (bind_returned _ _ _ _ _ _ (deref_found _ _ _ H)).
  unfold dispatch_trace, dispatch_status.
  destruct (MarkedForPurge (Flags m)); [reflexivity|].
  destruct Entry; reflexivity.
Qed.

Lemma preload_body_run p w m :
  lookup p w = Some m ->
  preload_entry p w
  = (preload_trace p m,
     Returned tt (with_list w (update_node p (preload_step p) (g_LdrModuleList w)))).
Proof.
  intros H. unfold preload_entry.
  rewrite (bind_returned _ _ _ _ _ _ (deref_found _ _ _ H)).
  rewrite (bind_returned _ _ _ _ _ _ (MdpDispatchEntry_run _ _ _ _ _ H)).
  unfold preload_trace. simpl.
  unfold MdpMarkModuleForPurge.
  destruct (AurieSuccess (dispatch_status p m (ModulePreinitialize m))) eqn:E;
    simpl; rewrite app_nil_r; unfold with_list;
    rewrite (update_node_ext p _ (preload_step p) _ m H);
    try reflexivity; unfold preload_step; now rewrite E.
Qed.

Lemma init_body_run p w m :
  lookup p w = Some m ->
  init_entry p w
  = (init_trace p m,
     Returned tt (with_list w (update_node p (init_step p) (g_LdrModuleList w)))).
Proof.
  intros H. unfold init_entry.
  assert (Hq : MdIsImageInitialized p w
               = ([], Returned (IsInitialized (Flags m)) w)).
  { unfold MdIsImageInitialized.
    now rewrite (bind_returned _ _ _ _ _ _ (deref_found _ _ _ H)). }
  rewrite (bind_returned _ _ _ _ _ _ Hq).
  unfold init_trace.
  destruct (IsInitialized (Flags m)) eqn:Ei.
  - simpl. rewrite (update_node_fixed p (init_step p) _ m H).
    + now rewrite with_list_same.
    + unfold init_step. now rewrite Ei.
  - rewrite (bind_returned _ _ _ _ _ _ (deref_found _ _ _ H)).
    rewrite (bind_returned _ _ _ _ _ _ (MdpDispatchEntry_run _ _ _ _ _ H)).
    unfold MdpMarkModuleForPurge.
    destruct (AurieSuccess (dispatch_status p m (ModuleInitialize m))) eqn:E;
      simpl; rewrite app_nil_r; unfold with_list;
      rewrite (update_node_ext p _ (init_step p) _ m H);
      try reflexivity; unfold init_step; now rewrite Ei, E.
Qed.

Lemma MmpFreeMemory_listed p w m a :
  lookup p w = Some m -> In a (MemoryAllocations m) ->
  MmpFreeMemory p (AllocationBase a) false w
  = ([EvFreeMemory p (AllocationBase a)], Returned Success w).
Proof.
  intros H Hin. unfold MmpFreeMemory.
  rewrite (bind_returned _ _ _ _ _ _ (deref_found _ _ _ H)).
  assert (E : existsb (fun a0 => Z.eqb (AllocationBase a0) (AllocationBase a))
                      (MemoryAllocations m) = true).
  { apply existsb_exists. exists a. split; [assumption|apply Z.eqb_refl]. }
  rewrite E. reflexivity.
Qed.

Lemma free_each_run p w m l :
  lookup p w = Some m -> incl l (MemoryAllocations m) ->
  for_each (fun a => MmpFreeMemory p (AllocationBase a) false ;; ret tt) l w
  = (map (fun a => EvFreeMemory p (AllocationBase a)) l, Returned tt w).
Proof.
  intros H. induction l as [|a l IH]; intros Hincl; [reflexivity|].
  simpl for_each.
  assert (Ha : (MmpFreeMemory p (AllocationBase a) false ;; ret tt) w
               = ([EvFreeMemory p (AllocationBase a)], Returned tt w)).
  { rewrite (bind_returned _ _ _ _ _ _
               (MmpFreeMemory_listed p w m a H (Hincl a (or_introl eq_refl)))).
    reflexivity. }
  rewrite (bind_returned _ _ _ _ _ _ Ha).
  rewrite IH; [reflexivity|].
  intros x Hx. apply Hincl. now right.
Qed.

Lemma FreeAll_run p w m :
  lookup p w = Some m ->
  FreeAll p w
  = (free_trace p m,
     Returned tt (with_list w (update_node p clear_MemoryAllocations
                                           (g_LdrModuleList w)))).
Proof.
  intros H. unfold FreeAll.
  rewrite (bind_returned _ _ _ _ _ _ (deref_found _ _ _ H)).
  rewrite (bind_returned _ _ _ _ _ _
             (free_each_run p w m _ H (incl_refl _))).
  rewrite modify_run. simpl. unfold free_trace. now rewrite app_nil_r.
Qed.

Lemma MdpUnmapImage_run p w m call_unload :
  lookup p w = Some m ->
  exists st,
    MdpUnmapImage p false call_unload w
    = (unmap_trace call_unload p m,
       Returned st (with_list w (update_node p clear_MemoryAllocations
                                             (g_LdrModuleList w)))).
Proof.
  intros H. unfold MdpUnmapImage.
  rewrite (bind_returned _ _ _ _ _ _ (deref_found _ _ _ H)).
  assert (Hst : exists st,
    (if call_unload then MdpDispatchEntry Unload p (ModuleUnload m)
     else ret Success) w
    = ((if call_unload then dispatch_trace Unload p m (ModuleUnload m) else []),
       Returned st w)).
  { destruct call_unload.
    - eexists. apply MdpDispatchEntry_run. exact H.
    - eexists. reflexivity. }
  destruct Hst as [st Hst]. exists st.
  rewrite (bind_returned _ _ _ _ _ _ Hst).
  assert (He : emit (EvUnmapImage p) w = ([EvUnmapImage p], Returned tt w))
    by reflexivity.
  rewrite (bind_returned _ _ _ _ _ _ He).
  rewrite (bind_returned _ _ _ _ _ _ (FreeAll_run p w m H)).
  simpl. unfold unmap_trace. simpl. now rewrite !app_nil_r.
Qed.

Lemma detach_body_run p w m :
  lookup p w = Some m ->
  detach_entry p w
  = (detach_trace (g_ArInitialImage w) p m,
     Returned tt (with_list w (update_node p (detach_step (g_ArInitialImage w) p)
                                           (g_LdrModuleList w)))).
Proof.
  intros H. unfold detach_entry.
  assert (Hg : get w = ([], Returned w w)) by reflexivity.
  rewrite (bind_returned _ _ _ _ _ _ Hg). simpl.
  destruct (MdpUnmapImage_run p w m true H) as [st Hu].
  assert (Hun : (MdpUnmapImage p false true ;; ret tt) w
          = (unmap_trace true p m,
             Returned tt (with_list w (update_node p clear_MemoryAllocations
                                                   (g_LdrModuleList w))))).
  { rewrite (bind_returned _ _ _ _ _ _ Hu). simpl. now rewrite app_nil_r. }
  unfold detach_trace, detach_step, is_initial.
  destruct (g_ArInitialImage w) as [init|].
  - destruct (Nat.eqb p init) eqn:E.
    + simpl. rewrite (update_node_fixed p _ _ m H eq_refl).
      now rewrite with_list_same.
    + now rewrite Hun.
  - now rewrite Hun.
Qed.

(** ** A pass over the registry

    When the body only rewrites the record it visits, the pass never
    faults, visits the records in list order, and leaves the list with
    the same addresses in the same order. *)

Section RegistryPass.

Variable body : ptr -> Act unit.
Variable ev : ptr -> AurieModule -> list Event.
Variable step : ptr -> AurieModule -> AurieModule.
Variable init : option ptr.

Hypothesis body_run :
  forall p w m,
    g_ArInitialImage w = init ->
    lookup p w = Some m ->
    body p w
    = (ev p m,
       Returned tt (with_list w (update_node p (step p) (g_LdrModuleList w)))).

Lemma range_for_run todo :
  forall pre w,
    g_ArInitialImage w = init ->
    g_LdrModuleList w = pre ++ todo ->
    NoDup (map fst (pre ++ todo)) ->
    range_for body (map fst todo) w
    = (trace_of ev todo,
       Returned tt (with_list w (pre ++ over_nodes step todo))).
Proof.
  induction todo as [|[p m] todo IH]; intros pre w Hi Hl Hnd.
  - simpl. rewrite app_nil_r in *. rewrite <- Hl.
    now rewrite with_list_same.
  - assert (Hp : ~ In p (map fst pre)).
    { rewrite map_app in Hnd. simpl in Hnd. exact (nodup_app_head _ _ _ Hnd). }
    assert (Hm : lookup p w = Some m).
    { unfold lookup. rewrite Hl, (find_node_app_skip _ _ _ Hp). simpl.
      now rewrite Nat.eqb_refl. }
    simpl map. simpl range_for.
    rewrite (bind_returned _ _ _ _ _ _ (body_run p w m Hi Hm)).
    rewrite Hl, (update_node_app_skip _ _ _ _ Hp). simpl update_node.
    rewrite Nat.eqb_refl.
    set (w1 := with_list w (pre ++ (p, step p m) :: todo)).
    assert (Hg : get w1 = ([], Returned w1 w1)) by reflexivity.
    rewrite (bind_returned _ _ _ _ _ _ Hg).
    assert (Ha : addrs w1 = map fst pre ++ p :: map fst todo).
    { unfold addrs, w1. simpl. now rewrite map_app. }
    rewrite Ha, (suffix_after_app_skip _ _ _ Hp), same_addrs_refl.
    rewrite (IH (pre ++ [(p, step p m)]) w1).
    + simpl. unfold w1, with_list. simpl. now rewrite <- app_assoc.
    + exact Hi.
    + unfold w1. simpl. now rewrite <- app_assoc.
    + rewrite <- app_assoc. simpl. rewrite map_app in *. exact Hnd.
Qed.

Lemma for_each_module_run w :
  NoDup (addrs w) ->
  g_ArInitialImage w = init ->
  for_each_module body w
  = (trace_of ev (g_LdrModuleList w),
     Returned tt (with_list w (over_nodes step (g_LdrModuleList w)))).
Proof.
  intros Hnd Hi. unfold for_each_module.
  assert (Hg : get w = ([], Returned w w)) by reflexivity.
  rewrite (bind_returned _ _ _ _ _ _ Hg).
  unfold addrs. now rewrite (range_for_run _ [] w Hi eq_refl Hnd).
Qed.

End RegistryPass.

Lemma attach_preload_loop_run w :
  NoDup (addrs w) ->
  attach_preload_loop w
  = (trace_of preload_trace (g_LdrModuleList w),
     Returned tt (with_list w (over_nodes preload_step (g_LdrModuleList w)))).
Proof.
  intros Hnd. unfold attach_preload_loop.
  apply (for_each_module_run _ preload_trace preload_step (g_ArInitialImage w));
    [|assumption|reflexivity].
  intros p w0 m _ Hm. now apply preload_body_run.
Qed.

Lemma attach_init_loop_run w :
  NoDup (addrs w) ->
  attach_init_loop w
  = (trace_of init_trace (g_LdrModuleList w),
     Returned tt (with_list w (over_nodes init_step (g_LdrModuleList w)))).
Proof.
  intros Hnd. unfold attach_init_loop.
  apply (for_each_module_run _ init_trace init_step (g_ArInitialImage w));
    [|assumption|reflexivity].
  intros p w0 m _ Hm. now apply init_body_run.
Qed.

Lemma detach_unload_modules_run w :
  NoDup (addrs w) ->
  detach_unload_modules w
  = (trace_of (detach_trace (g_ArInitialImage w)) (g_LdrModuleList w),
     Returned tt (with_list w (over_nodes (detach_step (g_ArInitialImage w))
                                          (g_LdrModuleList w)))).
Proof.
  intros Hnd. unfold detach_unload_modules.
  apply (for_each_module_run _ (detach_trace (g_ArInitialImage w))
           (detach_step (g_ArInitialImage w)) (g_ArInitialImage w));
    [|assumption|reflexivity].
  intros p w0 m Hi Hm. rewrite <- Hi. now apply detach_body_run.
Qed.

(** ** The purge *)

Lemma nodup_map_filter {A B} (f : A -> B) (g : A -> bool) l :
  NoDup (map f l) -> NoDup (map f (filter g l)).
Proof.
  induction l as [|a l IH]; simpl; intros H; [constructor|].
  inversion H as [|? ? Ha Hl]; subst.
  destruct (g a); simpl; [|now apply IH].
  constructor; [|now apply IH].
  intros Hin. apply Ha. apply in_map_iff in Hin.
  destruct Hin as [x [Hx Hin]]. apply filter_In in Hin.
  apply in_map_iff. exists x. tauto.
Qed.

Lemma unmap_each_run sel :
  forall w,
    NoDup (map fst sel) ->
    (forall n, In n sel -> lookup (fst n) w = Some (snd n)) ->
    exists l',
      for_each (fun n => MdpUnmapImage (fst n) false false ;; ret tt) sel w
      = (trace_of (unmap_trace false) sel, Returned tt (with_list w l')).
Proof.
  induction sel as [|[p m] sel IH]; intros w Hnd Hl.
  - exists (g_LdrModuleList w). simpl. now rewrite with_list_same.
  - simpl in Hnd. inversion Hnd as [|? ? Hp Hnd']; subst.
    assert (Hm : lookup p w = Some m) by exact (Hl (p, m) (or_introl eq_refl)).
    destruct (MdpUnmapImage_run p w m false Hm) as [st Hu].
    set (w1 := with_list w (update_node p clear_MemoryAllocations
                                        (g_LdrModuleList w))) in *.
    assert (Hb : (MdpUnmapImage p false false ;; ret tt) w
                 = (unmap_trace false p m, Returned tt w1)).
    { rewrite (bind_returned _ _ _ _ _ _ Hu). simpl. now rewrite app_nil_r. }
    destruct (IH w1 Hnd') as [l' Hl'].
    { intros n Hn. unfold lookup, w1. simpl.
      rewrite find_node_update_other.
      - apply Hl. now right.
      - intros ->. apply Hp. now apply in_map. }
    exists l'. simpl for_each.
    rewrite (bind_returned _ _ _ _ _ _ Hb), Hl'. reflexivity.
Qed.

Lemma MdpPurgeMarkedModules_run w :
  NoDup (addrs w) ->
  MdpPurgeMarkedModules w
  = (purge_trace (g_ArInitialImage w) (g_LdrModuleList w),
     Returned Success
       (with_list w (purge_keep (g_ArInitialImage w) (g_LdrModuleList w)))).
Proof.
  intros Hnd. unfold MdpPurgeMarkedModules.
  assert (Hg : get w = ([], Returned w w)) by reflexivity.
  rewrite (bind_returned _ _ _ _ _ _ Hg).
  destruct (unmap_each_run
              (filter (purgeable (g_ArInitialImage w)) (g_LdrModuleList w)) w)
    as [l' Hl'].
  - now apply nodup_map_filter.
  - intros [p m] Hn. apply filter_In in Hn. destruct Hn as [Hn _].
    now apply find_node_in_nodup.
  - rewrite (bind_returned _ _ _ _ _ _ Hl'). simpl.
    unfold purge_trace. now rewrite !app_nil_r.
Qed.

(** ** The detach sequence *)

Lemma detach_free_persistent_run w p0 m0 :
  g_ArInitialImage w = Some p0 ->
  lookup p0 w = Some m0 ->
  detach_free_persistent w
  = (free_trace p0 m0,
     Returned tt (with_list w (update_node p0 clear_MemoryAllocations
                                           (g_LdrModuleList w)))).
Proof.
  intros Hi Hm. unfold detach_free_persistent.
  assert (Hg : get w = ([], Returned w w)) by reflexivity.
  rewrite (bind_returned _ _ _ _ _ _ Hg). simpl. rewrite Hi.
  rewrite (bind_returned _ _ _ _ _ _ (deref_found _ _ _ Hm)).
  rewrite (bind_returned _ _ _ _ _ _
             (free_each_run p0 w m0 _ Hm (incl_refl _))).
  rewrite modify_run. simpl. unfold free_trace. now rewrite app_nil_r.
Qed.

Lemma ArProcessDetach_run w p0 m0 :
  NoDup (addrs w) ->
  g_ArInitialImage w = Some p0 ->
  lookup p0 w = Some m0 ->
  ArProcessDetach w
  = (trace_of (detach_trace (Some p0)) (g_LdrModuleList w) ++ free_trace p0 m0,
     Returned tt (torn_down w)).
Proof.
  intros Hnd Hi Hm. unfold ArProcessDetach.
  rewrite (bind_returned _ _ _ _ _ _ (detach_unload_modules_run w Hnd)).
  rewrite Hi.
  set (w1 := with_list w (over_nodes (detach_step (Some p0)) (g_LdrModuleList w))).
  assert (Hm1 : lookup p0 w1 = Some m0).
  { unfold lookup, w1. simpl. rewrite find_node_over_nodes.
    unfold lookup in Hm. rewrite Hm. simpl.
    unfold detach_step, is_initial. now rewrite Nat.eqb_refl. }
  assert (Hi1 : g_ArInitialImage w1 = Some p0) by exact Hi.
  rewrite (bind_returned _ _ _ _ _ _
             (detach_free_persistent_run w1 p0 m0 Hi1 Hm1)).
  simpl. now rewrite app_nil_r.
Qed.

Lemma ArProcessDetach_null w :
  NoDup (addrs w) ->
  g_ArInitialImage w = None ->
  ArProcessDetach w
  = (trace_of (detach_trace None) (g_LdrModuleList w), Faulted).
Proof.
  intros Hnd Hi. unfold ArProcessDetach.
  rewrite (bind_returned _ _ _ _ _ _ (detach_unload_modules_run w Hnd)).
  rewrite Hi. unfold bind at 1. unfold detach_free_persistent, bind, get.
  simpl. rewrite Hi. now rewrite app_nil_r.
Qed.

(** ** [DllMain] and the end of the worker *)

Lemma DllMain_detach_unload host w :
  DllMain host DLL_PROCESS_DETACH 0 w = (ArProcessDetach ;; ret true) w.
Proof. reflexivity. Qed.

Lemma DllMain_detach_teardown host reserved w :
  reserved <> 0%Z ->
  DllMain host DLL_PROCESS_DETACH reserved w = ([], Returned true w).
Proof.
  intros H. unfold DllMain. simpl.
  destruct (Z.eqb_spec reserved 0) as [E|_]; [contradiction|reflexivity].
Qed.

Lemma FreeLibraryAndExitThread_run host w p0 m0 :
  NoDup (addrs w) ->
  g_ArInitialImage w = Some p0 ->
  lookup p0 w = Some m0 ->
  FreeLibraryAndExitThread host w
  = (EvFreeLibraryAndExitThread ::
       trace_of (detach_trace (Some p0)) (g_LdrModuleList w) ++ free_trace p0 m0,
     Returned tt (torn_down w)).
Proof.
  intros Hnd Hi Hm. unfold FreeLibraryAndExitThread.
  assert (He : emit EvFreeLibraryAndExitThread w
               = ([EvFreeLibraryAndExitThread], Returned tt w)) by reflexivity.
  rewrite (bind_returned _ _ _ _ _ _ He).
  assert (Hd : DllMain host DLL_PROCESS_DETACH 0 w
               = (trace_of (detach_trace (Some p0)) (g_LdrModuleList w)
                    ++ free_trace p0 m0,
                  Returned true (torn_down w))).
  { rewrite DllMain_detach_unload.
    rewrite (bind_returned _ _ _ _ _ _ (ArProcessDetach_run w p0 m0 Hnd Hi Hm)).
    simpl. now rewrite app_nil_r. }
  rewrite (bind_returned _ _ _ _ _ _ Hd). simpl. now rewrite app_nil_r.
Qed.

Lemma wait_for_end_key_run host w :
  forall fuel i,
    wait_for_end_key host fuel i w
    = match sleeps_before_end host fuel i with
      | Some n => (repeat EvSleep n, Returned tt w)
      | None => (repeat EvSleep fuel, Blocked w)
      end.
Proof.
  induction fuel as [|fuel IH]; intros i; [reflexivity|].
  simpl. destruct (negb (Z.eqb (host_end_key host i) 0)); [reflexivity|].
  assert (Hs : Sleep w = ([EvSleep], Returned tt w)) by reflexivity.
  rewrite (bind_returned _ _ _ _ _ _ Hs), IH.
  destruct (sleeps_before_end host fuel (S i)); reflexivity.
Qed.

Lemma sleeps_before_end_pressed host n :
  forall fuel i,
    n < fuel ->
    (forall j, j < n -> host_end_key host (i + j) = 0%Z) ->
    host_end_key host (i + n) <> 0%Z ->
    sleeps_before_end host fuel i = Some n.
Proof.
  induction n as [|n IH]; intros fuel i Hlt Hup Hdown;
    (destruct fuel as [|fuel]; [lia|]); simpl.
  - rewrite Nat.add_0_r in Hdown.
    destruct (Z.eqb_spec (host_end_key host i) 0); [contradiction|reflexivity].
  - assert (H0 : host_end_key host i = 0%Z).
    { rewrite <- (Nat.add_0_r i). apply Hup. lia. }
    rewrite H0. simpl. rewrite (IH fuel (S i)); [reflexivity|lia| |].
    + intros j Hj. replace (S i + j) with (i + S j) by lia. apply Hup. lia.
    + replace (S i + n) with (i + S n) by lia. exact Hdown.
Qed.

Lemma sleeps_before_end_idle host :
  forall fuel i,
    (forall j, j < fuel -> host_end_key host (i + j) = 0%Z) ->
    sleeps_before_end host fuel i = None.
Proof.
  induction fuel as [|fuel IH]; intros i Hup; [reflexivity|]. simpl.
  assert (H0 : host_end_key host i = 0%Z).
  { rewrite <- (Nat.add_0_r i). apply Hup. lia. }
  rewrite H0. simpl. rewrite IH; [reflexivity|].
  intros j Hj. replace (S i + j) with (i + S j) by lia. apply Hup. lia.
Qed.

Lemma sleeps_before_end_sound host :
  forall fuel i n,
    sleeps_before_end host fuel i = Some n ->
    n < fuel /\
    (forall j, j < n -> host_end_key host (i + j) = 0%Z) /\
    host_end_key host (i + n) <> 0%Z.
Proof.
  induction fuel as [|fuel IH]; intros i n; simpl; [discriminate|].
  destruct (Z.eqb_spec (host_end_key host i) 0) as [E|E]; simpl.
  - destruct (sleeps_before_end host fuel (S i)) as [k|] eqn:Ek;
      simpl; [|discriminate].
    intros H; injection H as <-.
    destruct (IH (S i) k Ek) as (Hlt & Hup & Hdown).
    split; [lia|]. split.
    + intros [|j] Hj; [now rewrite Nat.add_0_r|].
      replace (i + S j) with (S i + j) by lia. apply Hup. lia.
    + replace (i + S k) with (S i + k) by lia. exact Hdown.
  - intros H; injection H as <-. split; [lia|]. split.
    + intros j Hj; lia.
    + now rewrite Nat.add_0_r.
Qed.

Lemma attach_tail_run host fuel w p0 m0 :
  NoDup (addrs w) ->
  g_ArInitialImage w = Some p0 ->
  lookup p0 w = Some m0 ->
  attach_tail host fuel w
  = match sleeps_before_end host fuel 0 with
    | Some n =>
        (repeat EvSleep n ++
         EvFreeLibraryAndExitThread ::
           trace_of (detach_trace (Some p0)) (g_LdrModuleList w)
           ++ free_trace p0 m0,
         Returned tt (torn_down w))
    | None => (repeat EvSleep fuel, Blocked w)
    end.
Proof.
  intros Hnd Hi Hm. unfold attach_tail.
  pose proof (wait_for_end_key_run host w fuel 0) as Hw.
  destruct (sleeps_before_end host fuel 0) as [n|].
  - rewrite (bind_returned _ _ _ _ _ _ Hw).
    now rewrite (FreeLibraryAndExitThread_run host w p0 m0 Hnd Hi Hm).
  - now rewrite (bind_blocked _ _ _ _ _ Hw).
Qed.

(** ** The synchronization gate *)

Lemma attach_sync_gate_run host w :
  attach_sync_gate host w
  = (gate_trace host, if gate_opens host then Returned tt w else Blocked w).
Proof.
  unfold attach_sync_gate, gate_trace, gate_opens, needs_resume, is_windowed,
    ElIsProcessSuspended, ElpResumeProcess, PpGetImageSubsystem,
    ElWaitForCurrentProcessWindow, WaitForInputIdle, bind, ret, emit, block.
  destruct (host_is_suspended host) as [s b]. simpl.
  destruct (negb (AurieSuccess s) || b);
    destruct (Z.eqb (host_subsystem host) IMAGE_SUBSYSTEM_WINDOWS_GUI);
    destruct (host_window_appears host);
    destruct (host_input_idle host); reflexivity.
Qed.

(** ** The core setup *)

Lemma MdpAddModuleToList_well_formed m w :
  well_formed w ->
  well_formed (match snd (MdpAddModuleToList m w) with
               | Returned _ w' => w'
               | _ => w
               end).
Proof.
  intros [Hnd Hlt]. unfold well_formed, addrs. simpl.
  rewrite map_app. simpl. split.
  - apply NoDup_app; [exact Hnd|repeat constructor; intros []|].
    intros a Ha [<-|[]].
    rewrite Forall_forall in Hlt. specialize (Hlt _ Ha). unfold addrs in *. lia.
  - apply Forall_app. split.
    + eapply Forall_impl; [|exact Hlt]. simpl. intros; lia.
    + repeat constructor.
Qed.

Lemma map_images_run stop cs :
  forall w,
    well_formed w ->
    exists w',
      map_images stop cs w = ([], Returned tt w') /\
      well_formed w' /\
      g_ArInitialImage w' = g_ArInitialImage w /\
      exists extra, g_LdrModuleList w' = g_LdrModuleList w ++ extra.
Proof.
  induction cs as [|c cs IH]; intros w Hwf.
  - exists w. repeat split; try assumption; try apply Hwf.
    exists []. now rewrite app_nil_r.
  - simpl map_images.
    assert (Hc : exists st w1,
              MdpMapImage c w = ([], Returned st w1) /\
              well_formed w1 /\
              g_ArInitialImage w1 = g_ArInitialImage w /\
              exists extra, g_LdrModuleList w1 = g_LdrModuleList w ++ extra).
    { unfold MdpMapImage.
      destruct (negb (AurieSuccess (fst c))).
      - exists (fst c), w. repeat split; try apply Hwf.
        exists []. now rewrite app_nil_r.
      - unfold bind at 1. simpl.
        destruct (existsb _ (g_LdrModuleList w)).
        + exists AlreadyExists, w. repeat split; try apply Hwf.
          exists []. now rewrite app_nil_r.
        + eexists Success, _. split; [reflexivity|]. split.
          * exact (MdpAddModuleToList_well_formed (snd c) w Hwf).
          * split; [reflexivity|]. eexists. reflexivity. }
    destruct Hc as (st & w1 & Hrun & Hwf1 & Hi1 & extra1 & Hl1).
    rewrite (bind_returned _ _ _ _ _ _ Hrun).
    destruct (stop && negb (AurieSuccess st)).
    + exists w1. repeat split; try assumption; try apply Hwf1.
      exists extra1. assumption.
    + destruct (IH w1 Hwf1) as (w2 & Hrun2 & Hwf2 & Hi2 & extra2 & Hl2).
      exists w2. rewrite Hrun2. repeat split; try apply Hwf2.
      * congruence.
      * exists (extra1 ++ extra2). rewrite Hl2, Hl1. now rewrite app_assoc.
Qed.

Lemma attach_core_setup_failed host f :
  setup_failure host = Some f ->
  exists w',
    attach_core_setup host initial_world
    = ([EvMessageBox (fatal_message f)], Returned false w') /\
    (forall fuel,
       ArProcessAttach host fuel initial_world
       = ([EvMessageBox (fatal_message f)], Returned tt w')) /\
    (g_LdrModuleList w' = [] \/
     g_LdrModuleList w' = [(1, snd (host_create_module host))]).
Proof.
  unfold setup_failure. intros H.
  unfold attach_core_setup, ArProcessAttach,
    QueryFullProcessImageNameW, MdpCreateModule, MdpGetImageFolder,
    MdpAddModuleToList, set_g_ArInitialImage, deref, MessageBoxA, emit, ret, bind.
  simpl.
  destruct (host_image_name host) as [name|].
  - destruct (AurieSuccess (fst (host_create_module host))); simpl in *.
    + destruct (AurieSuccess (host_image_folder host)) eqn:E; simpl in *;
        [discriminate|].
      injection H as <-.
      eexists. split; [reflexivity|]. split; [reflexivity|]. now right.
    + injection H as <-.
      eexists. split; [reflexivity|]. split; [reflexivity|]. now left.
  - injection H as <-.
    eexists. split; [reflexivity|]. split; [reflexivity|]. now left.
Qed.

Lemma attach_core_setup_done host :
  setup_failure host = None ->
  exists w',
    attach_core_setup host initial_world = ([], Returned true w') /\
    (forall fuel,
       ArProcessAttach host fuel initial_world = attach_dispatch host fuel w') /\
    well_formed w' /\
    g_ArInitialImage w' = Some 1 /\
    exists mods,
      g_LdrModuleList w' = (1, snd (host_create_module host)) :: mods.
Proof.
  unfold setup_failure. intros H.
  destruct (host_image_name host) as [name|] eqn:En; [|discriminate].
  destruct (AurieSuccess (fst (host_create_module host))) eqn:Ec;
    simpl in H; [|discriminate].
  destruct (AurieSuccess (host_image_folder host)) eqn:Ef;
    simpl in H; [|discriminate].
  set (w0 := {| g_LdrModuleList := [(1, snd (host_create_module host))];
                g_ArInitialImage := Some 1;
                next_node := 2 |}).
  assert (Hwf0 : well_formed w0).
  { split; simpl.
    - repeat constructor. intros [].
    - repeat constructor. }
  destruct (map_images_run false (host_folder_images host) w0 Hwf0)
    as (w' & Hrun & Hwf & Hi & extra & Hl).
  exists w'. split; [|split; [|split; [|split]]].
  - unfold attach_core_setup,
      QueryFullProcessImageNameW, MdpCreateModule, MdpGetImageFolder,
      MdpAddModuleToList, set_g_ArInitialImage, deref, MessageBoxA, MdpMapFolder.
    unfold bind at 1. simpl. rewrite En.
    unfold bind at 1. simpl. rewrite Ec. simpl.
    unfold bind at 1. simpl. unfold bind at 1. simpl.
    unfold bind at 1. unfold bind at 1. simpl. rewrite Ef. simpl.
    fold w0. rewrite (bind_returned _ _ _ _ _ _ Hrun). reflexivity.
  - intros fuel.
    unfold ArProcessAttach,
      QueryFullProcessImageNameW, MdpCreateModule, MdpGetImageFolder,
      MdpAddModuleToList, set_g_ArInitialImage, deref, MessageBoxA, MdpMapFolder.
    unfold bind at 1. simpl. rewrite En.
    unfold bind at 1. simpl. rewrite Ec. simpl.
    unfold bind at 1. simpl. unfold bind at 1. simpl.
    unfold bind at 1. unfold bind at 1. simpl. rewrite Ef. simpl.
    fold w0. rewrite (bind_returned _ _ _ _ _ _ Hrun). simpl.
    unfold attach_dispatch. now destruct (bind _ _ w').
  - exact Hwf.
  - exact Hi.
  - exists extra. exact Hl.
Qed.

(** ** [ArProcessAttach] is the core setup followed by the dispatch
    sequence *)

Lemma bind_assoc {A B C} (m : Act A) (k : A -> Act B) (h : B -> Act C) w :
  bind (bind m k) h w = bind m (fun a => bind (k a) h) w.
Proof.
  unfold bind. destruct (m w) as [t [a w1| |w1]]; try reflexivity.
  destruct (k a w1) as [t1 [b w2| |w2]]; try reflexivity.
  destruct (h b w2) as [t2 o]. now rewrite app_assoc.
Qed.

Lemma bind_ext {A B} (m : Act A) (k k' : A -> Act B) w :
  (forall a w', k a w' = k' a w') -> bind m k w = bind m k' w.
Proof.
  intros H. unfold bind. destruct (m w) as [t [a w1| |w1]]; try reflexivity.
  now rewrite H.
Qed.

Lemma bind_ret_l {A B} (a : A) (k : A -> Act B) w : bind (ret a) k w = k a w.
Proof. unfold bind, ret. now destruct (k a w). Qed.

Lemma ArProcessAttach_stages host fuel w :
  ArProcessAttach host fuel w
  = (ok <- attach_core_setup host ;;
     if ok then attach_dispatch host fuel else ret tt) w.
Proof.
  unfold ArProcessAttach, attach_core_setup.
  rewrite bind_assoc. apply bind_ext. intros [name|] w1.
  - rewrite bind_assoc. apply bind_ext. intros r w2.
    destruct (negb (AurieSuccess (fst r))).
    + unfold bind, MessageBoxA, emit, ret. reflexivity.
    + rewrite bind_assoc. apply bind_ext. intros p w3.
      rewrite bind_assoc. apply bind_ext. intros [] w4.
      rewrite bind_assoc. apply bind_ext. intros st w5.
      destruct (negb (AurieSuccess st)).
      * unfold bind, MessageBoxA, emit, ret. reflexivity.
      * rewrite bind_assoc. apply bind_ext. intros [] w6.
        now rewrite bind_ret_l.
  - unfold bind, MessageBoxA, emit, ret. reflexivity.
Qed.

(** ** The dispatch sequence *)

Lemma find_node_purge_keep p0 l :
  find_node p0 (purge_keep (Some p0) l) = find_node p0 l.
Proof.
  induction l as [|[q m] l IH]; simpl; [reflexivity|].
  unfold purgeable at 1. simpl.
  destruct (Nat.eqb_spec p0 q) as [<-|Hne].
  - rewrite Nat.eqb_refl, andb_false_r. simpl. now rewrite Nat.eqb_refl.
  - destruct (MarkedForPurge (Flags m) && negb (q =? p0)); simpl.
    + exact IH.
    + destruct (Nat.eqb_spec p0 q); [contradiction|exact IH].
Qed.

Lemma purge_keep_nodup init l :
  NoDup (map fst l) -> NoDup (map fst (purge_keep init l)).
Proof. apply nodup_map_filter. Qed.

Lemma attach_dispatch_run host fuel w p0 :
  NoDup (addrs w) ->
  g_ArInitialImage w = Some p0 ->
  attach_dispatch host fuel w
  = if gate_opens host then
      (trace_of preload_trace (g_LdrModuleList w) ++
       purge_trace (Some p0) (preloaded (g_LdrModuleList w)) ++
       gate_trace host ++
       trace_of init_trace (preload_purged (Some p0) (g_LdrModuleList w)) ++
       purge_trace (Some p0) (initialized (Some p0) (g_LdrModuleList w)) ++
       fst (attach_tail host fuel
              (with_list w (init_purged (Some p0) (g_LdrModuleList w)))),
       snd (attach_tail host fuel
              (with_list w (init_purged (Some p0) (g_LdrModuleList w)))))
    else
      (trace_of preload_trace (g_LdrModuleList w) ++
       purge_trace (Some p0) (preloaded (g_LdrModuleList w)) ++
       gate_trace host,
       Blocked (with_list w (preload_purged (Some p0) (g_LdrModuleList w)))).
Proof.
  intros Hnd Hi. unfold attach_dispatch.
  rewrite (bind_returned _ _ _ _ _ _ (attach_preload_loop_run w Hnd)).
  set (w1 := with_list w (over_nodes preload_step (g_LdrModuleList w))).
  assert (Hnd1 : NoDup (addrs w1)).
  { unfold addrs, w1. simpl. now rewrite over_nodes_addrs. }
  rewrite (bind_returned _ _ _ _ _ _ (MdpPurgeMarkedModules_run w1 Hnd1)).
  change (g_ArInitialImage w1) with (g_ArInitialImage w). rewrite Hi.
  change (g_LdrModuleList w1) with (preloaded (g_LdrModuleList w)).
  change (purge_keep (Some p0) (preloaded (g_LdrModuleList w)))
    with (preload_purged (Some p0) (g_LdrModuleList w)).
  set (w2 := with_list w1 (preload_purged (Some p0) (g_LdrModuleList w))).
  assert (Hnd2 : NoDup (addrs w2)).
  { unfold addrs, w2. simpl. apply purge_keep_nodup. exact Hnd1. }
  pose proof (attach_sync_gate_run host w2) as Hg.
  destruct (gate_opens host).
  - rewrite (bind_returned _ _ _ _ _ _ Hg).
    rewrite (bind_returned _ _ _ _ _ _ (attach_init_loop_run w2 Hnd2)).
    change (g_LdrModuleList w2)
      with (preload_purged (Some p0) (g_LdrModuleList w)).
    change (over_nodes init_step (preload_purged (Some p0) (g_LdrModuleList w)))
      with (initialized (Some p0) (g_LdrModuleList w)).
    set (w3 := with_list w2 (initialized (Some p0) (g_LdrModuleList w))).
    assert (Hnd3 : NoDup (addrs w3)).
    { unfold addrs, w3. simpl. unfold initialized.
      rewrite over_nodes_addrs. exact Hnd2. }
    rewrite (bind_returned _ _ _ _ _ _ (MdpPurgeMarkedModules_run w3 Hnd3)).
    change (g_ArInitialImage w3) with (g_ArInitialImage w). rewrite Hi.
    change (g_LdrModuleList w3) with (initialized (Some p0) (g_LdrModuleList w)).
    change (purge_keep (Some p0) (initialized (Some p0) (g_LdrModuleList w)))
      with (init_purged (Some p0) (g_LdrModuleList w)).
    reflexivity.
  - rewrite (bind_blocked _ _ _ _ _ Hg). reflexivity.
Qed.

(** ** Reading hooks and unmaps off a trace *)

Lemma hooked_app stage a b :
  hooked stage (a ++ b) = hooked stage a ++ hooked stage b.
Proof.
  induction a as [|e a IH]; [reflexivity|].
  destruct e; simpl; try exact IH.
  destruct (same_stage stage0 stage); simpl; now rewrite IH.
Qed.

Lemma unmapped_app a b : unmapped (a ++ b) = unmapped a ++ unmapped b.
Proof.
  induction a as [|e a IH]; [reflexivity|].
  destruct e; simpl; try exact IH. now rewrite IH.
Qed.

Lemma same_stage_refl stage : same_stage stage stage = true.
Proof. now destruct stage. Qed.

Lemma hooked_in stage p s t :
  In (EvHook stage p s) t -> In p (hooked stage t).
Proof.
  induction t as [|e t IH]; simpl; [tauto|].
  intros [->|Hin].
  - rewrite same_stage_refl. now left.
  - destruct e; try now apply IH.
    destruct (same_stage stage0 stage); [right|]; now apply IH.
Qed.

Lemma in_hooked stage p t :
  In p (hooked stage t) -> exists s, In (EvHook stage p s) t.
Proof.
  induction t as [|e t IH]; simpl; [tauto|].
  destruct e; try (intros H; destruct (IH H) as [s Hs]; exists s; now right).
  destruct (same_stage stage0 stage) eqn:E.
  - intros [<-|H].
    + exists result. left. now destruct stage0, stage.
    + destruct (IH H) as [s Hs]; exists s; now right.
  - intros H; destruct (IH H) as [s Hs]; exists s; now right.
Qed.

Lemma hooked_dispatch stage stage' p m Entry :
  hooked stage (dispatch_trace stage' p m Entry)
  = if same_stage stage' stage && hook_runs m Entry then [p] else [].
Proof.
  unfold dispatch_trace, hook_runs.
  destruct (MarkedForPurge (Flags m)); simpl.
  - now rewrite andb_false_r.
  - destruct Entry; simpl.
    + destruct (same_stage stage' stage); reflexivity.
    + now rewrite andb_false_r.
Qed.

Lemma hooked_free stage p m : hooked stage (free_trace p m) = [].
Proof.
  unfold free_trace. induction (MemoryAllocations m); simpl; auto.
Qed.

Lemma unmapped_free p m : unmapped (free_trace p m) = [].
Proof.
  unfold free_trace. induction (MemoryAllocations m); simpl; auto.
Qed.

Lemma unmapped_dispatch stage p m Entry :
  unmapped (dispatch_trace stage p m Entry) = [].
Proof.
  unfold dispatch_trace.
  destruct (MarkedForPurge (Flags m)); [reflexivity|].
  destruct Entry; reflexivity.
Qed.

Lemma hooked_trace_of stage ev l :
  hooked stage (trace_of ev l)
  = flat_map (fun n => hooked stage (ev (fst n) (snd n))) l.
Proof.
  unfold trace_of. induction l as [|n l IH]; [reflexivity|].
  simpl. now rewrite hooked_app, IH.
Qed.

Lemma unmapped_trace_of ev l :
  unmapped (trace_of ev l)
  = flat_map (fun n => unmapped (ev (fst n) (snd n))) l.
Proof.
  unfold trace_of. induction l as [|n l IH]; [reflexivity|].
  simpl. now rewrite unmapped_app, IH.
Qed.

Lemma flat_map_nil {A B} (f : A -> list B) l :
  (forall a, In a l -> f a = []) -> flat_map f l = [].
Proof.
  induction l as [|a l IH]; intros H; [reflexivity|].
  simpl. rewrite (H a (or_introl eq_refl)), IH; [reflexivity|].
  intros; apply H; now right.
Qed.

Lemma flat_map_filter_map {A B} (f : A -> B) (g : A -> bool) l :
  flat_map (fun a => if g a then [f a] else []) l = map f (filter g l).
Proof.
  induction l as [|a l IH]; [reflexivity|].
  simpl. destruct (g a); simpl; now rewrite IH.
Qed.

Lemma hooked_preload stage l :
  hooked stage (trace_of preload_trace l)
  = if same_stage Preinitialize stage
    then map fst (filter (fun n => hook_runs (snd n) (ModulePreinitialize (snd n))) l)
    else [].
Proof.
  rewrite hooked_trace_of. unfold preload_trace.
  destruct (same_stage Preinitialize stage) eqn:E.
  - rewrite <- flat_map_filter_map. apply flat_map_ext. intros n.
    now rewrite hooked_dispatch, E.
  - apply flat_map_nil. intros n _. now rewrite hooked_dispatch, E.
Qed.

Lemma hooked_init stage l :
  hooked stage (trace_of init_trace l)
  = if same_stage Initialize stage
    then map fst (filter (fun n => negb (IsInitialized (Flags (snd n))) &&
                                   hook_runs (snd n) (ModuleInitialize (snd n))) l)
    else [].
Proof.
  rewrite hooked_trace_of. unfold init_trace.
  destruct (same_stage Initialize stage) eqn:E.
  - rewrite <- flat_map_filter_map. apply flat_map_ext. intros n.
    destruct (IsInitialized (Flags (snd n))); [reflexivity|].
    now rewrite hooked_dispatch, E.
  - apply flat_map_nil. intros n _.
    destruct (IsInitialized (Flags (snd n))); [reflexivity|].
    now rewrite hooked_dispatch, E.
Qed.

Lemma hooked_unmap stage call_unload p m :
  hooked stage (unmap_trace call_unload p m)
  = if call_unload && same_stage Unload stage && hook_runs m (ModuleUnload m)
    then [p] else [].
Proof.
  unfold unmap_trace. rewrite hooked_app. simpl. rewrite hooked_free, app_nil_r.
  destruct call_unload; [|reflexivity].
  now rewrite hooked_dispatch.
Qed.

Lemma hooked_purge stage init l : hooked stage (purge_trace init l) = [].
Proof.
  unfold purge_trace. rewrite hooked_trace_of.
  apply flat_map_nil. intros n _. now rewrite hooked_unmap.
Qed.

Lemma hooked_gate stage host : hooked stage (gate_trace host) = [].
Proof.
  unfold gate_trace.
  destruct (needs_resume host), (is_windowed host), (host_window_appears host);
    reflexivity.
Qed.

Lemma hooked_detach stage init l :
  same_stage Unload stage = false ->
  hooked stage (trace_of (detach_trace init) l) = [].
Proof.
  intros E. rewrite hooked_trace_of. apply flat_map_nil. intros n _.
  unfold detach_trace. destruct (is_initial init (fst n)); [reflexivity|].
  rewrite hooked_unmap, E. reflexivity.
Qed.

Lemma hooked_sleep stage n : hooked stage (repeat EvSleep n) = [].
Proof. induction n; simpl; auto. Qed.

Lemma unmapped_sleep n : unmapped (repeat EvSleep n) = [].
Proof. induction n; simpl; auto. Qed.

Lemma hooked_tail stage host fuel w p0 m0 :
  same_stage Unload stage = false ->
  NoDup (addrs w) ->
  g_ArInitialImage w = Some p0 ->
  lookup p0 w = Some m0 ->
  hooked stage (fst (attach_tail host fuel w)) = [].
Proof.
  intros E Hnd Hi Hm. rewrite (attach_tail_run host fuel w p0 m0 Hnd Hi Hm).
  destruct (sleeps_before_end host fuel 0); simpl.
  - rewrite hooked_app, hooked_sleep. simpl.
    now rewrite hooked_app, hooked_detach, hooked_free.
  - apply hooked_sleep.
Qed.

(** ** Facts about the two dispatch passes *)

Lemma attach_core_setup_inv host w :
  attach_core_setup host initial_world = ([], Returned true w) ->
  setup_failure host = None /\
  (forall fuel,
     ArProcessAttach host fuel initial_world = attach_dispatch host fuel w) /\
  well_formed w /\
  g_ArInitialImage w = Some 1 /\
  exists mods, g_LdrModuleList w = (1, snd (host_create_module host)) :: mods.
Proof.
  intros H. destruct (setup_failure host) as [f|] eqn:E.
  - destruct (attach_core_setup_failed host f E) as (w' & Hs & _).
    rewrite Hs in H. discriminate.
  - split; [reflexivity|].
    destruct (attach_core_setup_done host E) as (w' & Hs & Hrest).
    rewrite Hs in H. injection H as <-. exact Hrest.
Qed.

Lemma preload_hook_inv p s l :
  In (EvHook Preinitialize p s) (trace_of preload_trace l) ->
  exists m f,
    In (p, m) l /\
    MarkedForPurge (Flags m) = false /\
    ModulePreinitialize m = Some f /\
    s = f p (ImagePath m).
Proof.
  unfold trace_of. rewrite in_flat_map. intros [[q m] [Hin He]].
  unfold preload_trace, dispatch_trace in He. simpl in He.
  destruct (MarkedForPurge (Flags m)) eqn:Em; [contradiction|].
  destruct (ModulePreinitialize m) as [f|] eqn:Ef; [|contradiction].
  destruct He as [He|[]]. injection He as -> <-.
  exists m, f. auto.
Qed.

Lemma init_hook_inv p s l :
  In (EvHook Initialize p s) (trace_of init_trace l) ->
  exists m f,
    In (p, m) l /\
    IsInitialized (Flags m) = false /\
    MarkedForPurge (Flags m) = false /\
    ModuleInitialize m = Some f /\
    s = f p (ImagePath m).
Proof.
  unfold trace_of. rewrite in_flat_map. intros [[q m] [Hin He]].
  unfold init_trace, dispatch_trace in He. simpl in He.
  destruct (IsInitialized (Flags m)) eqn:Ei; [contradiction|].
  destruct (MarkedForPurge (Flags m)) eqn:Em; [contradiction|].
  destruct (ModuleInitialize m) as [f|] eqn:Ef; [|contradiction].
  destruct He as [He|[]]. injection He as -> <-.
  exists m, f. auto.
Qed.

Lemma in_addrs_nodup_unique p m m' (l : list (ptr * AurieModule)) :
  NoDup (map fst l) -> In (p, m) l -> In (p, m') l -> m = m'.
Proof.
  intros Hnd H1 H2.
  apply (find_node_in_nodup _ _ _ Hnd) in H1.
  apply (find_node_in_nodup _ _ _ Hnd) in H2. congruence.
Qed.

Lemma preload_failure_general l p0 p s :
  NoDup (map fst l) ->
  In (EvHook Preinitialize p s) (trace_of preload_trace l) ->
  AurieSuccess s = false ->
  p <> p0 ->
  (exists m, find_node p (preloaded l) = Some m /\
             MarkedForPurge (Flags m) = true) /\
  In p (map fst l) /\
  ~ In p (map fst (preload_purged (Some p0) l)).
Proof.
  intros Hnd Hin Hs Hp.
  destruct (preload_hook_inv _ _ _ Hin) as (m & f & Hm & Emark & Ef & ->).
  assert (Hstep : preload_step p m = set_MarkedForPurge m).
  { unfold preload_step, dispatch_status. now rewrite Emark, Ef, Hs. }
  assert (Hfind : find_node p (preloaded l) = Some (set_MarkedForPurge m)).
  { unfold preloaded. rewrite find_node_over_nodes.
    rewrite (find_node_in_nodup _ _ _ Hnd Hm). simpl. now rewrite Hstep. }
  split; [|split].
  - exists (set_MarkedForPurge m). split; [exact Hfind|reflexivity].
  - change p with (fst (p, m)). now apply in_map.
  - intros Hk. unfold preload_purged, purge_keep in Hk.
    apply in_map_iff in Hk. destruct Hk as [[q m'] [Hq Hk]].
    simpl in Hq. subst q. apply filter_In in Hk. destruct Hk as [Hk Hkeep].
    assert (Hnd' : NoDup (map fst (preloaded l))).
    { unfold preloaded. now rewrite over_nodes_addrs. }
    apply (find_node_in_nodup _ _ _ Hnd') in Hk.
    rewrite Hfind in Hk. injection Hk as <-.
    unfold purgeable in Hkeep. simpl in Hkeep.
    destruct (Nat.eqb_spec p p0); [contradiction|discriminate].
Qed.

Lemma lookup_init_purged w p0 m0 :
  lookup p0 w = Some m0 ->
  lookup p0 (with_list w (init_purged (Some p0) (g_LdrModuleList w)))
  = Some (init_step p0 (preload_step p0 m0)).
Proof.
  unfold lookup. simpl. intros H.
  unfold init_purged, initialized, preload_purged, preloaded.
  rewrite find_node_purge_keep, find_node_over_nodes,
    find_node_purge_keep, find_node_over_nodes, H.
  reflexivity.
Qed.

Lemma init_purged_nodup init l :
  NoDup (map fst l) -> NoDup (map fst (init_purged init l)).
Proof.
  intros H. unfold init_purged, initialized, preload_purged, preloaded.
  apply purge_keep_nodup. rewrite over_nodes_addrs.
  apply purge_keep_nodup. now rewrite over_nodes_addrs.
Qed.

Lemma attach_dispatch_hooked stage host fuel w p0 m0 :
  same_stage Unload stage = false ->
  NoDup (addrs w) ->
  g_ArInitialImage w = Some p0 ->
  lookup p0 w = Some m0 ->
  hooked stage (fst (attach_dispatch host fuel w))
  = hooked stage (trace_of preload_trace (g_LdrModuleList w)) ++
    (if gate_opens host
     then hooked stage
            (trace_of init_trace (preload_purged (Some p0) (g_LdrModuleList w)))
     else []).
Proof.
  intros E Hnd Hi Hm. rewrite (attach_dispatch_run host fuel w p0 Hnd Hi).
  destruct (gate_opens host); simpl fst.
  - rewrite !hooked_app, !hooked_purge, hooked_gate. simpl.
    rewrite (hooked_tail stage host fuel _ p0 (init_step p0 (preload_step p0 m0)) E).
    + now rewrite app_nil_r.
    + unfold addrs. simpl. now apply init_purged_nodup.
    + exact Hi.
    + apply lookup_init_purged. exact Hm.
  - rewrite !hooked_app, hooked_purge, hooked_gate. simpl.
    now rewrite app_nil_r.
Qed.

Lemma dispatch_preinitialize_events host fuel w p0 m0 p s :
  NoDup (addrs w) ->
  g_ArInitialImage w = Some p0 ->
  lookup p0 w = Some m0 ->
  In (EvHook Preinitialize p s) (fst (attach_dispatch host fuel w)) ->
  In (EvHook Preinitialize p s) (trace_of preload_trace (g_LdrModuleList w)).
Proof.
  intros Hnd Hi Hm Hin.
  pose proof (attach_dispatch_hooked Preinitialize host fuel w p0 m0
                eq_refl Hnd Hi Hm) as Hh.
  rewrite (attach_dispatch_run host fuel w p0 Hnd Hi) in Hin, Hh.
  assert (Hrest : forall rest,
            hooked Preinitialize
              (trace_of preload_trace (g_LdrModuleList w) ++ rest)
            = hooked Preinitialize (trace_of preload_trace (g_LdrModuleList w))
              ++ [] ->
            In (EvHook Preinitialize p s)
               (trace_of preload_trace (g_LdrModuleList w) ++ rest) ->
            In (EvHook Preinitialize p s)
               (trace_of preload_trace (g_LdrModuleList w))).
  { intros rest Hr H. apply in_app_or in H. destruct H as [H|H]; [exact H|].
    rewrite hooked_app in Hr. apply app_inv_head in Hr.
    apply hooked_in in H. rewrite Hr in H. contradiction. }
  destruct (gate_opens host); simpl fst in *.
  - rewrite hooked_init in Hh. exact (Hrest _ Hh Hin).
  - exact (Hrest _ Hh Hin).
Qed.

Lemma dispatch_initialize_events host fuel w p0 m0 p s :
  NoDup (addrs w) ->
  g_ArInitialImage w = Some p0 ->
  lookup p0 w = Some m0 ->
  In (EvHook Initialize p s) (fst (attach_dispatch host fuel w)) ->
  gate_opens host = true /\
  In p (map fst (preload_purged (Some p0) (g_LdrModuleList w))).
Proof.
  intros Hnd Hi Hm Hin. apply hooked_in in Hin.
  rewrite (attach_dispatch_hooked Initialize host fuel w p0 m0
             eq_refl Hnd Hi Hm) in Hin.
  rewrite hooked_preload in Hin. simpl in Hin.
  destruct (gate_opens host); [|contradiction]. split; [reflexivity|].
  rewrite hooked_init in Hin. simpl in Hin.
  apply in_map_iff in Hin. destruct Hin as [n [Hn Hin]].
  apply filter_In in Hin. apply in_map_iff. exists n. tauto.
Qed.

(** * Claims *)

(** ** Facts about the detach sequence *)

Lemma in_unmapped p t : In (EvUnmapImage p) t <-> In p (unmapped t).
Proof.
  induction t as [|e t IH]; simpl; [tauto|].
  destruct e; simpl; rewrite <- IH;
    try (split; [intros [H|H]; [discriminate|exact H]|intros H; now right]).
  split.
  - intros [H|H]; [injection H as ->; now left|now right].
  - intros [->|H]; [now left|now right].
Qed.

Lemma unmapped_unmap call_unload p m :
  unmapped (unmap_trace call_unload p m) = [p].
Proof.
  unfold unmap_trace. rewrite unmapped_app. simpl. rewrite unmapped_free.
  destruct call_unload; [now rewrite unmapped_dispatch|reflexivity].
Qed.

Lemma unmapped_detach init l :
  unmapped (trace_of (detach_trace init) l)
  = filter (fun p => negb (is_initial init p)) (map fst l).
Proof.
  rewrite unmapped_trace_of.
  induction l as [|[p m] l IH]; [reflexivity|].
  simpl. rewrite IH. unfold detach_trace at 1.
  destruct (is_initial init p); simpl; [reflexivity|].
  now rewrite unmapped_unmap.
Qed.

Lemma over_nodes_fixed step l :
  (forall n, In n l -> step (fst n) (snd n) = snd n) -> over_nodes step l = l.
Proof.
  induction l as [|[q m] l IH]; intros H; [reflexivity|].
  pose proof (H (q, m) (or_introl eq_refl)) as Hq. simpl in Hq.
  simpl. rewrite Hq.
  f_equal. apply IH. intros n Hn. apply H. now right.
Qed.

Lemma update_node_over_nodes p f l :
  NoDup (map fst l) ->
  update_node p f l = over_nodes (fun q m => if Nat.eqb q p then f m else m) l.
Proof.
  induction l as [|[q m] l IH]; simpl; intros Hnd; [reflexivity|].
  inversion Hnd as [|? ? Hq Hnd']; subst.
  destruct (Nat.eqb_spec p q) as [->|Hne].
  - rewrite Nat.eqb_refl. f_equal. symmetry. apply over_nodes_fixed.
    intros [r m'] Hr. simpl.
    destruct (Nat.eqb_spec r q) as [->|_]; [|reflexivity].
    exfalso. apply Hq. change q with (fst (q, m')). now apply in_map.
  - destruct (Nat.eqb_spec q p); [congruence|]. f_equal. now apply IH.
Qed.

Lemma find_node_update_same p f l m :
  find_node p l = Some m -> find_node p (update_node p f l) = Some (f m).
Proof.
  induction l as [|[q m'] l IH]; simpl; [discriminate|].
  destruct (Nat.eqb p q) eqn:E; simpl; rewrite E.
  - intros H; now injection H as ->.
  - exact IH.
Qed.

Lemma detach_leaves_no_allocation p0 l :
  NoDup (map fst l) ->
  flat_map (fun n => MemoryAllocations (snd n))
    (update_node p0 clear_MemoryAllocations
       (over_nodes (detach_step (Some p0)) l)) = [].
Proof.
  intros Hnd. rewrite update_node_over_nodes
    by now rewrite over_nodes_addrs.
  apply flat_map_nil. intros n Hn.
  unfold over_nodes in Hn. rewrite map_map in Hn.
  apply in_map_iff in Hn. destruct Hn as [[q m] [<- _]]. simpl.
  unfold detach_step, is_initial.
  destruct (Nat.eqb q p0); reflexivity.
Qed.

(** C2.  One run of [ArProcessDetach] from a registry that holds the
    initial image: every record but the initial one is unmapped (and the
    initial one is not), every allocation of the initial image is freed,
    every allocation table still linked is empty before the registry is
    dropped, and in the end the initial-image reference is null and the
    registry is empty, so that no allocation can be reached from it. *)
Theorem detach_releases_everything w p0 m0 :
  NoDup (addrs w) ->
  g_ArInitialImage w = Some p0 ->
  lookup p0 w = Some m0 ->
  exists t_unload w_unloaded t_free w_freed w',
    detach_unload_modules w = (t_unload, Returned tt w_unloaded) /\
    detach_free_persistent w_unloaded = (t_free, Returned tt w_freed) /\
    ArProcessDetach w = (t_unload ++ t_free, Returned tt w') /\
    (forall p, In p (addrs w) -> p <> p0 -> In (EvUnmapImage p) t_unload) /\
    ~ In (EvUnmapImage p0) (t_unload ++ t_free) /\
    (forall a, In a (MemoryAllocations m0) ->
               In (EvFreeMemory p0 (AllocationBase a)) t_free) /\
    lookup p0 w_freed = Some (clear_MemoryAllocations m0) /\
    reachable_allocations w_freed = [] /\
    g_ArInitialImage w' = None /\
    g_LdrModuleList w' = [] /\
    reachable_allocations w' = [].
Proof.
  intros Hnd Hi Hm.
  set (w1 := with_list w (over_nodes (detach_step (Some p0)) (g_LdrModuleList w))).
  assert (Hm1 : lookup p0 w1 = Some m0).
  { unfold lookup, w1. simpl. rewrite find_node_over_nodes.
    unfold lookup in Hm. rewrite Hm. simpl.
    unfold detach_step, is_initial. now rewrite Nat.eqb_refl. }
  exists (trace_of (detach_trace (Some p0)) (g_LdrModuleList w)), w1,
         (free_trace p0 m0),
         (with_list w1 (update_node p0 clear_MemoryAllocations (g_LdrModuleList w1))),
         (torn_down w).
  split. { rewrite (detach_unload_modules_run w Hnd), Hi. reflexivity. }
  split. { exact (detach_free_persistent_run w1 p0 m0 Hi Hm1). }
  split. { exact (ArProcessDetach_run w p0 m0 Hnd Hi Hm). }
  split.
  { intros p Hp Hne. apply in_unmapped. rewrite unmapped_detach.
    apply filter_In. split; [exact Hp|]. simpl.
    destruct (Nat.eqb_spec p p0); [contradiction|reflexivity]. }
  split.
  { rewrite in_unmapped, unmapped_app, unmapped_detach, unmapped_free, app_nil_r.
    intros H. apply filter_In in H. destruct H as [_ H]. simpl in H.
    now rewrite Nat.eqb_refl in H. }
  split.
  { intros a Ha. unfold free_trace.
    apply (in_map (fun a => EvFreeMemory p0 (AllocationBase a))). exact Ha. }
  split.
  { unfold lookup. simpl. now apply find_node_update_same. }
  split.
  { unfold reachable_allocations. simpl.
    apply detach_leaves_no_allocation. exact Hnd. }
  repeat split.
Qed.

Lemma sample_loaded_nodup : NoDup (addrs sample_loaded).
Proof.
  unfold addrs. simpl. repeat constructor; simpl; intuition discriminate.
Qed.

Lemma detach_releases_everything_witness :
  exists t_unload w_unloaded t_free w_freed w',
    detach_unload_modules sample_loaded = (t_unload, Returned tt w_unloaded) /\
    detach_free_persistent w_unloaded = (t_free, Returned tt w_freed) /\
    ArProcessDetach sample_loaded = (t_unload ++ t_free, Returned tt w') /\
    (forall p, In p (addrs sample_loaded) -> p <> 1 ->
               In (EvUnmapImage p) t_unload) /\
    ~ In (EvUnmapImage 1) (t_unload ++ t_free) /\
    (forall a, In a (MemoryAllocations sample_host_image) ->
               In (EvFreeMemory 1 (AllocationBase a)) t_free) /\
    lookup 1 w_freed = Some (clear_MemoryAllocations sample_host_image) /\
    reachable_allocations w_freed = [] /\
    g_ArInitialImage w' = None /\
    g_LdrModuleList w' = [] /\
    reachable_allocations w' = [].
Proof.
  apply (detach_releases_everything sample_loaded 1 sample_host_image).
  - exact sample_loaded_nodup.
  - reflexivity.
  - reflexivity.
Defined.

(** C8.  The detach-time pass unmaps the records in registry (load)
    order, first loaded first unmapped, leaving out the initial image
    and nothing else; its Unload hooks, and the hooks of the preload and
    initialization passes, are called in that same forward order. *)
Theorem detach_unloads_in_load_order w p0 m0 :
  NoDup (addrs w) ->
  g_ArInitialImage w = Some p0 ->
  lookup p0 w = Some m0 ->
  unmapped (fst (detach_unload_modules w))
  = filter (fun p => negb (Nat.eqb p p0)) (addrs w) /\
  unmapped (fst (ArProcessDetach w))
  = filter (fun p => negb (Nat.eqb p p0)) (addrs w) /\
  hooked Unload (fst (ArProcessDetach w))
  = map fst (filter (fun n => negb (Nat.eqb (fst n) p0) &&
                              hook_runs (snd n) (ModuleUnload (snd n)))
                    (g_LdrModuleList w)) /\
  hooked Preinitialize (fst (attach_preload_loop w))
  = map fst (filter (fun n => hook_runs (snd n) (ModulePreinitialize (snd n)))
                    (g_LdrModuleList w)) /\
  hooked Initialize (fst (attach_init_loop w))
  = map fst (filter (fun n => negb (IsInitialized (Flags (snd n))) &&
                              hook_runs (snd n) (ModuleInitialize (snd n)))
                    (g_LdrModuleList w)).
Proof.
  intros Hnd Hi Hm.
  rewrite (detach_unload_modules_run w Hnd), (ArProcessDetach_run w p0 m0 Hnd Hi Hm),
    (attach_preload_loop_run w Hnd), (attach_init_loop_run w Hnd), Hi.
  simpl fst.
  rewrite unmapped_app, hooked_app, unmapped_free, hooked_free, !app_nil_r.
  rewrite unmapped_detach, hooked_preload, hooked_init. simpl.
  repeat split.
  rewrite hooked_trace_of, <- flat_map_filter_map.
  apply flat_map_ext. intros [q m]. simpl.
  unfold detach_trace. simpl.
  destruct (Nat.eqb q p0); simpl; [reflexivity|].
  now rewrite hooked_unmap.
Qed.

Lemma detach_unloads_in_load_order_witness :
  unmapped (fst (detach_unload_modules sample_loaded)) = [2; 3] /\
  unmapped (fst (ArProcessDetach sample_loaded)) = [2; 3] /\
  hooked Unload (fst (ArProcessDetach sample_loaded)) = [2; 3] /\
  hooked Preinitialize (fst (attach_preload_loop sample_loaded)) = [2; 3] /\
  hooked Initialize (fst (attach_init_loop sample_loaded)) = [2; 3].
Proof.
  exact (detach_unloads_in_load_order sample_loaded 1 sample_host_image
           sample_loaded_nodup eq_refl eq_refl).
Defined.

Lemma erase_flags_over_nodes step l :
  (forall q m, erase_flags (step q m) = erase_flags m) ->
  map (fun n => erase_flags (snd n)) (over_nodes step l)
  = map (fun n => erase_flags (snd n)) l.
Proof.
  intros H. unfold over_nodes. rewrite map_map. apply map_ext.
  intros n. simpl. apply H.
Qed.

Lemma erase_flags_preload_step q m :
  erase_flags (preload_step q m) = erase_flags m.
Proof.
  unfold preload_step.
  destruct (AurieSuccess (dispatch_status q m (ModulePreinitialize m)));
    reflexivity.
Qed.

Lemma erase_flags_init_step q m :
  erase_flags (init_step q m) = erase_flags m.
Proof.
  unfold init_step. destruct (IsInitialized (Flags m)); [reflexivity|].
  destruct (AurieSuccess (dispatch_status q m (ModuleInitialize m)));
    reflexivity.
Qed.

(** C4.  None of the three passes over the registry unlinks a record
    while it iterates.  One iteration of a dispatch pass leaves every
    other record alone and changes the visited one by one flag at most
    (when its hook ran: [IsPreloaded]/[IsInitialized] set on success,
    [MarkedForPurge] set on failure); one iteration of the detach pass
    leaves the sequence of linked records as it was.  Each pass therefore runs to its end over an unchanged
    sequence of records; records leave the registry only afterwards, in
    [MdpPurgeMarkedModules] or when [ArProcessDetach] clears the list. *)
Theorem passes_do_not_unlink w p m :
  NoDup (addrs w) ->
  lookup p w = Some m ->
  (exists t w',
     preload_entry p w = (t, Returned tt w') /\
     addrs w' = addrs w /\
     (forall q, q <> p -> lookup q w' = lookup q w) /\
     (lookup p w' = Some (set_IsPreloaded m) \/
      lookup p w' = Some (set_MarkedForPurge m)) /\
     (forall s, In (EvHook Preinitialize p s) t ->
        lookup p w' = Some (if AurieSuccess s then set_IsPreloaded m
                            else set_MarkedForPurge m))) /\
  (exists t w',
     init_entry p w = (t, Returned tt w') /\
     addrs w' = addrs w /\
     (forall q, q <> p -> lookup q w' = lookup q w) /\
     (lookup p w' = Some m \/
      lookup p w' = Some (set_IsInitialized m) \/
      lookup p w' = Some (set_MarkedForPurge m)) /\
     (forall s, In (EvHook Initialize p s) t ->
        lookup p w' = Some (if AurieSuccess s then set_IsInitialized m
                            else set_MarkedForPurge m))) /\
  (exists t w',
     detach_entry p w = (t, Returned tt w') /\
     addrs w' = addrs w /\
     (forall q, q <> p -> lookup q w' = lookup q w)) /\
  (exists t w',
     attach_preload_loop w = (t, Returned tt w') /\
     addrs w' = addrs w /\
     map (fun n => erase_flags (snd n)) (g_LdrModuleList w')
     = map (fun n => erase_flags (snd n)) (g_LdrModuleList w)) /\
  (exists t w',
     attach_init_loop w = (t, Returned tt w') /\
     addrs w' = addrs w /\
     map (fun n => erase_flags (snd n)) (g_LdrModuleList w')
     = map (fun n => erase_flags (snd n)) (g_LdrModuleList w)) /\
  (exists t w',
     detach_unload_modules w = (t, Returned tt w') /\
     addrs w' = addrs w) /\
  (exists t w',
     MdpPurgeMarkedModules w = (t, Returned Success w') /\
     g_LdrModuleList w'
     = filter (fun n => negb (purgeable (g_ArInitialImage w) n))
              (g_LdrModuleList w)) /\
  (forall p0 m0,
     g_ArInitialImage w = Some p0 ->
     lookup p0 w = Some m0 ->
     exists t w',
       ArProcessDetach w = (t, Returned tt w') /\ g_LdrModuleList w' = []).
Proof.
  intros Hnd Hm.
  split; [|split; [|split; [|split; [|split; [|split; [|split]]]]]].
  - eexists; eexists. split; [exact (preload_body_run p w m Hm)|].
    unfold addrs, lookup. simpl. split; [apply update_node_addrs|].
    split; [|split].
    + intros q Hq. apply find_node_update_other. congruence.
    + rewrite (find_node_update_same p _ _ m Hm). unfold preload_step.
      destruct (AurieSuccess _); auto.
    + intros s Hs. rewrite (find_node_update_same p _ _ m Hm).
      unfold preload_trace, dispatch_trace in Hs.
      unfold preload_step, dispatch_status.
      destruct (MarkedForPurge (Flags m)); [destruct Hs|].
      destruct (ModulePreinitialize m) as [f|]; [|destruct Hs].
      destruct Hs as [Hs|[]]. injection Hs as <-. reflexivity.
  - eexists; eexists. split; [exact (init_body_run p w m Hm)|].
    unfold addrs, lookup. simpl. split; [apply update_node_addrs|].
    split; [|split].
    + intros q Hq. apply find_node_update_other. congruence.
    + rewrite (find_node_update_same p _ _ m Hm). unfold init_step.
      destruct (IsInitialized (Flags m)); auto.
      destruct (AurieSuccess _); auto.
    + intros s Hs. rewrite (find_node_update_same p _ _ m Hm).
      unfold init_trace, dispatch_trace in Hs.
      unfold init_step, dispatch_status.
      destruct (IsInitialized (Flags m)); [destruct Hs|].
      destruct (MarkedForPurge (Flags m)); [destruct Hs|].
      destruct (ModuleInitialize m) as [f|]; [|destruct Hs].
      destruct Hs as [Hs|[]]. injection Hs as <-. reflexivity.
  - eexists; eexists. split; [exact (detach_body_run p w m Hm)|].
    unfold addrs, lookup. simpl. split; [apply update_node_addrs|].
    intros q Hq. apply find_node_update_other. congruence.
  - eexists; eexists. split; [exact (attach_preload_loop_run w Hnd)|].
    unfold addrs. simpl. split; [apply over_nodes_addrs|].
    apply erase_flags_over_nodes, erase_flags_preload_step.
  - eexists; eexists. split; [exact (attach_init_loop_run w Hnd)|].
    unfold addrs. simpl. split; [apply over_nodes_addrs|].
    apply erase_flags_over_nodes, erase_flags_init_step.
  - eexists; eexists. split; [exact (detach_unload_modules_run w Hnd)|].
    unfold addrs. simpl. apply over_nodes_addrs.
  - eexists; eexists. split; [exact (MdpPurgeMarkedModules_run w Hnd)|].
    reflexivity.
  - intros p0 m0 Hi Hm0. eexists; eexists.
    split; [exact (ArProcessDetach_run w p0 m0 Hnd Hi Hm0)|reflexivity].
Qed.

Lemma passes_do_not_unlink_witness :
  (exists t w',
     preload_entry 2 sample_loaded = (t, Returned tt w') /\
     addrs w' = addrs sample_loaded /\
     (forall q, q <> 2 -> lookup q w' = lookup q sample_loaded) /\
     (lookup 2 w' = Some (set_IsPreloaded sample_mod_A) \/
      lookup 2 w' = Some (set_MarkedForPurge sample_mod_A)) /\
     (forall s, In (EvHook Preinitialize 2 s) t ->
        lookup 2 w' = Some (if AurieSuccess s then set_IsPreloaded sample_mod_A
                            else set_MarkedForPurge sample_mod_A))) /\
  (exists t w',
     attach_preload_loop sample_loaded = (t, Returned tt w') /\
     addrs w' = addrs sample_loaded /\
     map (fun n => erase_flags (snd n)) (g_LdrModuleList w')
     = map (fun n => erase_flags (snd n)) (g_LdrModuleList sample_loaded)).
Proof.
  destruct (passes_do_not_unlink sample_loaded 2 sample_mod_A
              sample_loaded_nodup eq_refl)
    as (H1 & _ & _ & H4 & _).
  exact (conj H1 H4).
Defined.

(** ** Facts about the initialization pass *)

Lemma init_loop_skips w p m :
  NoDup (addrs w) ->
  lookup p w = Some m ->
  IsInitialized (Flags m) = true ->
  lookup p (with_list w (over_nodes init_step (g_LdrModuleList w))) = Some m /\
  ~ In p (hooked Initialize (trace_of init_trace (g_LdrModuleList w))).
Proof.
  intros Hnd Hm Hinit. split.
  - unfold lookup. simpl. rewrite find_node_over_nodes.
    unfold lookup in Hm. rewrite Hm. simpl.
    unfold init_step. now rewrite Hinit.
  - rewrite hooked_init. simpl. intros Hin.
    apply in_map_iff in Hin. destruct Hin as [[q m'] [Hq Hin]].
    simpl in Hq. subst q. apply filter_In in Hin. destruct Hin as [Hin Hf].
    apply (find_node_in_nodup _ _ _ Hnd) in Hin.
    unfold lookup in Hm. rewrite Hm in Hin. injection Hin as <-.
    simpl in Hf. now rewrite Hinit in Hf.
Qed.

(** C5.  A record whose [IsInitialized] flag is set is skipped by the
    initialization pass: the body at that record does nothing at all, a
    whole pass calls no Initialize hook for it and leaves it as it was,
    and so does the pass when it is run again.  In a repeated pass no
    record whose Initialize hook succeeded in the first pass is called a
    second time. *)
Theorem initialized_record_is_skipped w p m :
  NoDup (addrs w) ->
  lookup p w = Some m ->
  IsInitialized (Flags m) = true ->
  init_entry p w = ([], Returned tt w) /\
  exists t w',
    attach_init_loop w = (t, Returned tt w') /\
    (forall s, ~ In (EvHook Initialize p s) t) /\
    lookup p w' = Some m /\
    exists t2 w2,
      attach_init_loop w' = (t2, Returned tt w2) /\
      (forall s, ~ In (EvHook Initialize p s) t2) /\
      lookup p w2 = Some m /\
      forall q, In (EvHook Initialize q Success) t ->
        (forall s, ~ In (EvHook Initialize q s) t2) /\
        lookup q w2 = lookup q w'.
Proof.
  intros Hnd Hm Hinit. split.
  - rewrite (init_body_run p w m Hm). unfold init_trace. rewrite Hinit.
    rewrite (update_node_fixed p (init_step p) _ m Hm).
    + now rewrite with_list_same.
    + unfold init_step. now rewrite Hinit.
  - destruct (init_loop_skips w p m Hnd Hm Hinit) as [Hsame Hno].
    set (w1 := with_list w (over_nodes init_step (g_LdrModuleList w))) in *.
    assert (Hnd1 : NoDup (addrs w1)).
    { unfold addrs, w1. simpl. now rewrite over_nodes_addrs. }
    exists (trace_of init_trace (g_LdrModuleList w)), w1.
    split; [exact (attach_init_loop_run w Hnd)|].
    split; [intros s Hin; apply Hno; exact (hooked_in _ _ _ _ Hin)|].
    split; [exact Hsame|].
    destruct (init_loop_skips w1 p m Hnd1 Hsame Hinit) as [Hsame2 Hno2].
    eexists; eexists. split; [exact (attach_init_loop_run w1 Hnd1)|].
    split; [intros s Hin; apply Hno2; exact (hooked_in _ _ _ _ Hin)|].
    split; [exact Hsame2|].
    intros q Hq.
    destruct (init_hook_inv _ _ _ Hq) as (mq & f & Hmq & Ei & Em & Ef & Hs).
    assert (Hl : lookup q w1 = Some (set_IsInitialized mq)).
    { unfold lookup, w1. simpl. rewrite find_node_over_nodes.
      rewrite (find_node_in_nodup _ _ _ Hnd Hmq). simpl.
      unfold init_step, dispatch_status. now rewrite Ei, Em, Ef, <- Hs. }
    destruct (init_loop_skips w1 q _ Hnd1 Hl eq_refl) as [Hsameq Hnoq].
    split.
    + intros s Hin. apply Hnoq. exact (hooked_in _ _ _ _ Hin).
    + now rewrite Hl.
Qed.

Lemma sample_running_nodup : NoDup (addrs sample_running).
Proof.
  unfold addrs. simpl. repeat constructor; simpl; intuition discriminate.
Qed.

Lemma initialized_record_is_skipped_witness :
  init_entry 3 sample_running = ([], Returned tt sample_running) /\
  exists t w',
    attach_init_loop sample_running = (t, Returned tt w') /\
    (forall s, ~ In (EvHook Initialize 3 s) t) /\
    lookup 3 w' = Some (set_IsInitialized sample_mod_B) /\
    exists t2 w2,
      attach_init_loop w' = (t2, Returned tt w2) /\
      (forall s, ~ In (EvHook Initialize 3 s) t2) /\
      lookup 3 w2 = Some (set_IsInitialized sample_mod_B) /\
      forall q, In (EvHook Initialize q Success) t ->
        (forall s, ~ In (EvHook Initialize q s) t2) /\
        lookup q w2 = lookup q w'.
Proof.
  exact (initialized_record_is_skipped sample_running 3
           (set_IsInitialized sample_mod_B)
           sample_running_nodup eq_refl eq_refl).
Defined.

(** ** Where the gate and the exit show in a trace *)

Lemma gate_free_app a b : gate_free a -> gate_free b -> gate_free (a ++ b).
Proof.
  intros Ha Hb e He. apply in_app_or in He. destruct He; auto.
Qed.

Lemma exit_free_app a b : exit_free a -> exit_free b -> exit_free (a ++ b).
Proof.
  intros Ha Hb e He. apply in_app_or in He. destruct He; auto.
Qed.

Lemma dispatch_trace_plain stage p m Entry e :
  In e (dispatch_trace stage p m Entry) ->
  is_gate_event e = false /\ is_exit_event e = false.
Proof.
  unfold dispatch_trace. destruct (MarkedForPurge (Flags m)); [intros []|].
  destruct Entry; [|intros []]. intros [<-|[]]. now split.
Qed.

Lemma free_trace_plain p m e :
  In e (free_trace p m) ->
  is_gate_event e = false /\ is_exit_event e = false.
Proof.
  unfold free_trace. rewrite in_map_iff. intros [a [<- _]]. now split.
Qed.

Lemma unmap_trace_plain call_unload p m e :
  In e (unmap_trace call_unload p m) ->
  is_gate_event e = false /\ is_exit_event e = false.
Proof.
  unfold unmap_trace. intros H. apply in_app_or in H. destruct H as [H|[<-|H]].
  - destruct call_unload; [|destruct H].
    exact (dispatch_trace_plain _ _ _ _ _ H).
  - now split.
  - exact (free_trace_plain _ _ _ H).
Qed.

Lemma trace_of_plain ev l e :
  (forall p m e, In e (ev p m) ->
                 is_gate_event e = false /\ is_exit_event e = false) ->
  In e (trace_of ev l) ->
  is_gate_event e = false /\ is_exit_event e = false.
Proof.
  intros H. unfold trace_of. rewrite in_flat_map.
  intros [n [_ Hn]]. exact (H _ _ _ Hn).
Qed.

Lemma preload_trace_plain l e :
  In e (trace_of preload_trace l) ->
  is_gate_event e = false /\ is_exit_event e = false.
Proof.
  apply trace_of_plain. intros p m e0. apply dispatch_trace_plain.
Qed.

Lemma init_trace_plain l e :
  In e (trace_of init_trace l) ->
  is_gate_event e = false /\ is_exit_event e = false.
Proof.
  apply trace_of_plain. intros p m e0. unfold init_trace.
  destruct (IsInitialized (Flags m)); [intros []|]. apply dispatch_trace_plain.
Qed.

Lemma purge_trace_plain init l e :
  In e (purge_trace init l) ->
  is_gate_event e = false /\ is_exit_event e = false.
Proof.
  unfold purge_trace. apply trace_of_plain. intros p m e0.
  apply unmap_trace_plain.
Qed.

Lemma detach_trace_plain init l e :
  In e (trace_of (detach_trace init) l) ->
  is_gate_event e = false /\ is_exit_event e = false.
Proof.
  apply trace_of_plain. intros p m e0. unfold detach_trace.
  destruct (is_initial init p); [intros []|]. apply unmap_trace_plain.
Qed.

Lemma gate_trace_exit_free host : exit_free (gate_trace host).
Proof.
  intros e. unfold gate_trace.
  destruct (needs_resume host), (is_windowed host), (host_window_appears host);
    simpl; intuition (subst; reflexivity).
Qed.

Lemma attach_tail_gate_free host fuel w p0 m0 :
  NoDup (addrs w) ->
  g_ArInitialImage w = Some p0 ->
  lookup p0 w = Some m0 ->
  gate_free (fst (attach_tail host fuel w)).
Proof.
  intros Hnd Hi Hm. rewrite (attach_tail_run host fuel w p0 m0 Hnd Hi Hm).
  assert (Hs : forall n, gate_free (repeat EvSleep n)).
  { intros n e He. apply repeat_spec in He. now subst. }
  destruct (sleeps_before_end host fuel 0); simpl; [|apply Hs].
  apply gate_free_app; [apply Hs|].
  intros e [<-|He]; [reflexivity|].
  apply in_app_or in He. destruct He as [He|He].
  - exact (proj1 (detach_trace_plain _ _ _ He)).
  - exact (proj1 (free_trace_plain _ _ _ He)).
Qed.

Lemma split_in_middle {A} (P G Q t1 : list A) e t2 :
  P ++ G ++ Q = t1 ++ e :: t2 ->
  ~ In e P -> ~ In e Q ->
  exists g1 g2, G = g1 ++ e :: g2 /\ t1 = P ++ g1 /\ t2 = g2 ++ Q.
Proof.
  revert t1. induction P as [|x P IH]; intros t1 H HP HQ.
  - simpl in H. clear HP. revert t1 H.
    induction G as [|g G IHG]; intros t1 H.
    + exfalso. apply HQ. simpl in H. rewrite H. apply in_elt.
    + destruct t1 as [|y t1]; simpl in H; injection H as -> H.
      * exists [], G. auto.
      * destruct (IHG t1 H) as (g1 & g2 & -> & E1 & ->).
        exists (y :: g1), g2. simpl in *. now rewrite E1.
  - destruct t1 as [|y t1]; simpl in H; injection H as -> H.
    + exfalso. apply HP. now left.
    + destruct (IH t1 H) as (g1 & g2 & -> & -> & ->).
      * intros Hin. apply HP. now right.
      * exact HQ.
      * exists g1, g2. auto.
Qed.

(** The shape of a run whose core setup succeeded: what comes before the
    gate, the gate, what comes after it. *)
Lemma attach_trace_shape host fuel w :
  attach_core_setup host initial_world = ([], Returned true w) ->
  exists P Q out,
    ArProcessAttach host fuel initial_world = (P ++ gate_trace host ++ Q, out) /\
    gate_free P /\ gate_free Q /\ exit_free P /\
    hooked Initialize P = [] /\
    (gate_opens host = false -> Q = []) /\
    (gate_opens host = true ->
     exists Q1,
       exit_free Q1 /\
       Q = Q1 ++ fst (attach_tail host fuel
                        (with_list w (init_purged (Some 1) (g_LdrModuleList w)))) /\
       out = snd (attach_tail host fuel
                    (with_list w (init_purged (Some 1) (g_LdrModuleList w))))).
Proof.
  intros Hsetup.
  destruct (attach_core_setup_inv host w Hsetup)
    as (_ & Hrun & [Hnd Hlt] & Hi & mods & Hl).
  assert (Hm0 : lookup 1 w = Some (snd (host_create_module host))).
  { unfold lookup. rewrite Hl. reflexivity. }
  rewrite Hrun, (attach_dispatch_run host fuel w 1 Hnd Hi).
  assert (HP : forall e,
            In e (trace_of preload_trace (g_LdrModuleList w) ++
                  purge_trace (Some 1) (preloaded (g_LdrModuleList w))) ->
            is_gate_event e = false /\ is_exit_event e = false).
  { intros e He. apply in_app_or in He. destruct He as [He|He].
    - exact (preload_trace_plain _ _ He).
    - exact (purge_trace_plain _ _ _ He). }
  assert (HhP : hooked Initialize
                  (trace_of preload_trace (g_LdrModuleList w) ++
                   purge_trace (Some 1) (preloaded (g_LdrModuleList w))) = []).
  { now rewrite hooked_app, hooked_preload, hooked_purge. }
  exists (trace_of preload_trace (g_LdrModuleList w) ++
          purge_trace (Some 1) (preloaded (g_LdrModuleList w))).
  destruct (gate_opens host).
  - eexists; eexists. split; [rewrite <- app_assoc; reflexivity|].
    split; [intros e He; exact (proj1 (HP e He))|].
    split.
    { apply gate_free_app; [|apply gate_free_app].
      - intros e He. exact (proj1 (init_trace_plain _ _ He)).
      - intros e He. exact (proj1 (purge_trace_plain _ _ _ He)).
      - apply (attach_tail_gate_free host fuel _ 1
                 (init_step 1 (preload_step 1 (snd (host_create_module host))))).
        + unfold addrs. simpl. now apply init_purged_nodup.
        + exact Hi.
        + now apply lookup_init_purged. }
    split; [intros e He; exact (proj2 (HP e He))|].
    split; [exact HhP|].
    split; [discriminate|].
    intros _.
    exists (trace_of init_trace (preload_purged (Some 1) (g_LdrModuleList w)) ++
            purge_trace (Some 1) (initialized (Some 1) (g_LdrModuleList w))).
    split; [|split; [now rewrite <- app_assoc|reflexivity]].
    intros e He. apply in_app_or in He. destruct He as [He|He].
    + exact (proj2 (init_trace_plain _ _ He)).
    + exact (proj2 (purge_trace_plain _ _ _ He)).
  - exists [], (Blocked (with_list w (preload_purged (Some 1) (g_LdrModuleList w)))).
    split; [now rewrite app_nil_r, <- app_assoc|].
    split; [intros e He; exact (proj1 (HP e He))|].
    split; [intros e []|].
    split; [intros e He; exact (proj2 (HP e He))|].
    split; [exact HhP|].
    split; [reflexivity|discriminate].
Qed.

(** C6.  Whichever of the three core-setup steps fails (querying the
    host's image path, creating the initial Module Record, resolving the
    host's folder), the whole trace of the attach worker is one fatal
    message box: the message is shown once, no hook is dispatched, the
    worker returns, and the registry holds no mod (it is empty, or holds
    the initial image alone). *)
Theorem core_setup_failure_is_fatal host fuel :
  host_image_name host = None \/
  AurieSuccess (fst (host_create_module host)) = false \/
  AurieSuccess (host_image_folder host) = false ->
  exists f w',
    setup_failure host = Some f /\
    ArProcessAttach host fuel initial_world
    = ([EvMessageBox (fatal_message f)], Returned tt w') /\
    (forall stage p s,
       ~ In (EvHook stage p s) (fst (ArProcessAttach host fuel initial_world))) /\
    (g_LdrModuleList w' = [] \/
     g_LdrModuleList w' = [(1, snd (host_create_module host))]).
Proof.
  intros H.
  assert (Hf : exists f, setup_failure host = Some f).
  { unfold setup_failure.
    destruct (host_image_name host); [|eauto].
    destruct (AurieSuccess (fst (host_create_module host))); simpl; [|eauto].
    destruct (AurieSuccess (host_image_folder host)); simpl; [|eauto].
    destruct H as [H|[H|H]]; discriminate. }
  destruct Hf as [f Hf].
  destruct (attach_core_setup_failed host f Hf) as (w' & _ & Hrun & Hl).
  exists f, w'. split; [exact Hf|]. split; [apply Hrun|]. split; [|exact Hl].
  intros stage p s. rewrite Hrun. simpl. intros [E|[]]. discriminate.
Qed.

Lemma core_setup_failure_is_fatal_witness :
  exists f w',
    setup_failure sample_pathless_host = Some f /\
    ArProcessAttach sample_pathless_host 5 initial_world
    = ([EvMessageBox (fatal_message f)], Returned tt w') /\
    (forall stage p s,
       ~ In (EvHook stage p s)
            (fst (ArProcessAttach sample_pathless_host 5 initial_world))) /\
    (g_LdrModuleList w' = [] \/
     g_LdrModuleList w' = [(1, snd (host_create_module sample_pathless_host))]).
Proof.
  apply (core_setup_failure_is_fatal sample_pathless_host 5).
  left. reflexivity.
Defined.

(** C7.  On the process-detach notification, a non-null reserved
    argument (the process is being torn down) makes [DllMain] answer
    TRUE at once, with no call made and the globals untouched; with a
    null reserved argument [DllMain] runs [ArProcessDetach] before it
    answers, so that its trace and final state are those of
    [ArProcessDetach]. *)
Theorem detach_notification host reserved w :
  DllMain host DLL_PROCESS_DETACH reserved w
  = if Z.eqb reserved 0
    then (fst (ArProcessDetach w),
          match snd (ArProcessDetach w) with
          | Returned _ w' => Returned true w'
          | Faulted => Faulted
          | Blocked w' => Blocked w'
          end)
    else ([], Returned true w).
Proof.
  unfold DllMain. simpl.
  destruct (Z.eqb reserved 0); simpl; [|reflexivity].
  unfold bind. destruct (ArProcessDetach w) as [t [a w'| |w']]; simpl;
    [now rewrite app_nil_r|reflexivity|reflexivity].
Qed.

(** C9.  Once both passes and both purges are over (the gate having
    opened), the worker polls: as long as the END key stays up it
    sleeps, holds the registry as the second purge left it and frees
    nothing; when the key is seen down at poll [n] it has slept [n]
    times, and only then calls [FreeLibraryAndExitThread], whose
    process-detach notification runs [ArProcessDetach]. *)
Theorem worker_waits_for_end_key host fuel w_loaded :
  attach_core_setup host initial_world = ([], Returned true w_loaded) ->
  gate_opens host = true ->
  exists t_before w_ready,
    exit_free t_before /\
    g_ArInitialImage w_ready = Some 1 /\
    In 1 (addrs w_ready) /\
    (forall n,
       n < fuel ->
       (forall j, j < n -> host_end_key host j = 0%Z) ->
       host_end_key host n <> 0%Z ->
       exists t_detach w',
         DllMain host DLL_PROCESS_DETACH 0 w_ready = (t_detach, Returned true w') /\
         ArProcessDetach w_ready = (t_detach, Returned tt w') /\
         ArProcessAttach host fuel initial_world
         = (t_before ++ repeat EvSleep n ++
            EvFreeLibraryAndExitThread :: t_detach,
            Returned tt w') /\
         g_LdrModuleList w' = []) /\
    ((forall j, j < fuel -> host_end_key host j = 0%Z) ->
     ArProcessAttach host fuel initial_world
     = (t_before ++ repeat EvSleep fuel, Blocked w_ready) /\
     ~ In EvFreeLibraryAndExitThread (t_before ++ repeat EvSleep fuel)).
Proof.
  intros Hsetup Hgate.
  destruct (attach_trace_shape host fuel w_loaded Hsetup)
    as (P & Q & out & Hrun & _ & _ & HPx & _ & _ & Hopen).
  destruct (Hopen Hgate) as (Q1 & HQ1 & -> & ->).
  destruct (attach_core_setup_inv host w_loaded Hsetup)
    as (_ & _ & [Hnd Hlt] & Hi & mods & Hl).
  assert (Hm0 : lookup 1 w_loaded = Some (snd (host_create_module host))).
  { unfold lookup. rewrite Hl. reflexivity. }
  set (w_ready := with_list w_loaded
                    (init_purged (Some 1) (g_LdrModuleList w_loaded))) in *.
  set (m_ready := init_step 1 (preload_step 1 (snd (host_create_module host)))).
  assert (Hndr : NoDup (addrs w_ready)).
  { unfold addrs, w_ready. simpl. now apply init_purged_nodup. }
  assert (Hmr : lookup 1 w_ready = Some m_ready)
    by now apply lookup_init_purged.
  pose proof (attach_tail_run host fuel w_ready 1 m_ready Hndr Hi Hmr) as Htail.
  exists (P ++ gate_trace host ++ Q1), w_ready.
  split.
  { apply exit_free_app; [exact HPx|].
    apply exit_free_app; [apply gate_trace_exit_free|exact HQ1]. }
  split; [exact Hi|].
  split; [exact (find_node_in_addrs _ _ _ Hmr)|].
  split.
  - intros n Hn Hup Hdown.
    rewrite (sleeps_before_end_pressed host n fuel 0 Hn Hup Hdown) in Htail.
    eexists; eexists. split; [|split; [|split]].
    + rewrite DllMain_detach_unload.
      rewrite (bind_returned _ _ _ _ _ _
                 (ArProcessDetach_run w_ready 1 m_ready Hndr Hi Hmr)).
      simpl. now rewrite app_nil_r.
    + exact (ArProcessDetach_run w_ready 1 m_ready Hndr Hi Hmr).
    + rewrite Hrun, Htail. simpl. now rewrite <- !app_assoc.
    + reflexivity.
  - intros Hup.
    rewrite (sleeps_before_end_idle host fuel 0 Hup) in Htail.
    assert (Hr : ArProcessAttach host fuel initial_world
                 = ((P ++ gate_trace host ++ Q1) ++ repeat EvSleep fuel,
                    Blocked w_ready)).
    { rewrite Hrun, Htail. simpl. now rewrite <- !app_assoc. }
    split; [exact Hr|].
    intros Hin. apply in_app_or in Hin. destruct Hin as [Hin|Hin].
    + assert (Hx : exit_free (P ++ gate_trace host ++ Q1)).
      { apply exit_free_app; [exact HPx|].
        apply exit_free_app; [apply gate_trace_exit_free|exact HQ1]. }
      specialize (Hx _ Hin). discriminate.
    + apply repeat_spec in Hin. discriminate.
Qed.

Lemma resumes_app a b : resumes (a ++ b) = resumes a + resumes b.
Proof.
  induction a as [|e a IH]; [reflexivity|].
  destruct e; simpl; try exact IH. now rewrite IH.
Qed.

Lemma resumes_gate_free t : gate_free t -> resumes t = 0.
Proof.
  induction t as [|e t IH]; intros H; [reflexivity|].
  assert (He : is_gate_event e = false) by (apply H; now left).
  assert (Ht : resumes t = 0) by (apply IH; intros x Hx; apply H; now right).
  destruct e; simpl; try exact Ht. discriminate.
Qed.

Lemma resumes_in t : In EvResumeProcess t <-> 0 < resumes t.
Proof.
  induction t as [|e t IH]; simpl; [split; [tauto|lia]|].
  destruct e; simpl;
    try (rewrite <- IH; split; [intros [H|H]; [discriminate|exact H]|tauto]).
  split; [lia|auto].
Qed.

Lemma resumes_gate host :
  resumes (gate_trace host) = if needs_resume host then 1 else 0.
Proof.
  unfold gate_trace.
  destruct (needs_resume host), (is_windowed host), (host_window_appears host);
    reflexivity.
Qed.

(** C10.  In a run whose core setup succeeded, the host process is
    resumed once when the suspension query fails or reports the process
    suspended, and not at all otherwise; in particular a failed query
    always leads to a resume. *)
Theorem failed_suspension_query_resumes host fuel w_loaded :
  attach_core_setup host initial_world = ([], Returned true w_loaded) ->
  exists tr out,
    ArProcessAttach host fuel initial_world = (tr, out) /\
    resumes tr
    = (if negb (AurieSuccess (fst (host_is_suspended host))) ||
          snd (host_is_suspended host)
       then 1 else 0) /\
    (In EvResumeProcess tr <->
     AurieSuccess (fst (host_is_suspended host)) = false \/
     snd (host_is_suspended host) = true) /\
    (AurieSuccess (fst (host_is_suspended host)) = false ->
     In EvResumeProcess tr).
Proof.
  intros Hsetup.
  destruct (attach_trace_shape host fuel w_loaded Hsetup)
    as (P & Q & out & Hrun & HP & HQ & _).
  exists (P ++ gate_trace host ++ Q), out.
  assert (Hcount : resumes (P ++ gate_trace host ++ Q)
                   = if needs_resume host then 1 else 0).
  { rewrite !resumes_app, (resumes_gate_free P HP), (resumes_gate_free Q HQ),
      resumes_gate. simpl. lia. }
  assert (Hiff : In EvResumeProcess (P ++ gate_trace host ++ Q) <->
                 AurieSuccess (fst (host_is_suspended host)) = false \/
                 snd (host_is_suspended host) = true).
  { rewrite resumes_in, Hcount. unfold needs_resume.
    destruct (AurieSuccess (fst (host_is_suspended host))),
             (snd (host_is_suspended host)); simpl;
      split; intros H; try lia; auto;
      destruct H; discriminate. }
  split; [exact Hrun|]. split; [exact Hcount|]. split; [exact Hiff|].
  intros Hfail. apply Hiff. now left.
Qed.

Lemma failed_suspension_query_resumes_witness :
  attach_core_setup sample_console_host initial_world
  = ([], Returned true sample_console_loaded) /\
  AurieSuccess (fst (host_is_suspended sample_console_host)) = false /\
  exists tr out,
    ArProcessAttach sample_console_host 4 initial_world = (tr, out) /\
    resumes tr = 1 /\
    In EvResumeProcess tr.
Proof.
  split; [reflexivity|]. split; [reflexivity|].
  destruct (failed_suspension_query_resumes sample_console_host 4
              sample_console_loaded eq_refl)
    as (tr & out & Hrun & Hcount & _ & Hfail).
  exists tr, out. split; [exact Hrun|]. split; [exact Hcount|].
  apply Hfail. reflexivity.
Defined.

Lemma worker_waits_for_end_key_witness :
  attach_core_setup sample_host initial_world = ([], Returned true sample_loaded) /\
  gate_opens sample_host = true /\
  exists t_before t_detach w',
    exit_free t_before /\
    ArProcessAttach sample_host 5 initial_world
    = (t_before ++ repeat EvSleep 2 ++ EvFreeLibraryAndExitThread :: t_detach,
       Returned tt w') /\
    g_LdrModuleList w' = [].
Proof.
  split; [reflexivity|]. split; [reflexivity|].
  destruct (worker_waits_for_end_key sample_host 5 sample_loaded
              eq_refl eq_refl)
    as (t_before & w_ready & Hfree & _ & _ & Hpress & _).
  destruct (Hpress 2) as (t_detach & w' & _ & _ & Hrun & Hl).
  - lia.
  - intros [|[|j]] Hj; [reflexivity|reflexivity|lia].
  - discriminate.
  - exists t_before, t_detach, w'. auto.
Defined.

(** ** Order of the gate *)

Lemma gate_trace_window_split host g1 g2 :
  gate_trace host = g1 ++ EvWaitForWindow :: g2 ->
  is_windowed host = true /\
  g1 = (if needs_resume host then [EvResumeProcess] else []) /\
  g2 = (if host_window_appears host then [EvWaitForInputIdle] else []).
Proof.
  unfold gate_trace.
  destruct (needs_resume host), (is_windowed host), (host_window_appears host);
    simpl; intros H;
    destruct g1 as [|a [|b [|c g1]]]; simpl in H; try discriminate;
    injection H; intros; subst; try discriminate; auto;
    try (destruct g1; discriminate).
Qed.

Lemma gate_trace_open host :
  gate_opens host = true ->
  host_input_idle host = true /\
  In EvWaitForInputIdle (gate_trace host) /\
  (needs_resume host = true -> In EvResumeProcess (gate_trace host)) /\
  (is_windowed host = true ->
   In EvWaitForWindow (gate_trace host) /\ host_window_appears host = true).
Proof.
  unfold gate_opens, gate_trace.
  destruct (needs_resume host), (is_windowed host), (host_window_appears host),
    (host_input_idle host); simpl; intros H; try discriminate;
    repeat split; auto; try discriminate.
Qed.

Lemma singleton_split {A} (x e : A) t1 t2 :
  [x] = t1 ++ e :: t2 -> x = e.
Proof.
  destruct t1 as [|y t1]; simpl; intros H.
  - now injection H.
  - injection H as _ H. destruct t1; discriminate.
Qed.

(** C3.  Along the attach sequence: wherever the wait for the host's
    window occurs, the host is windowed, the resume (made when the
    suspension query fails or reports the host suspended) has already
    happened, and none follows; a non-windowed host whose core setup
    succeeded gets the input-idle wait and no window wait, a windowed
    one gets the window wait; and wherever an Initialize hook is
    called, the input-idle wait and, for a windowed host, the window
    wait have been made before it and have returned. *)
Theorem readiness_gate_order host fuel :
  let tr := fst (ArProcessAttach host fuel initial_world) in
  (forall t1 t2,
     tr = t1 ++ EvWaitForWindow :: t2 ->
     host_subsystem host = IMAGE_SUBSYSTEM_WINDOWS_GUI /\
     (AurieSuccess (fst (host_is_suspended host)) = false \/
      snd (host_is_suspended host) = true ->
      In EvResumeProcess t1) /\
     ~ In EvResumeProcess t2) /\
  (setup_failure host = None ->
   host_subsystem host <> IMAGE_SUBSYSTEM_WINDOWS_GUI ->
   ~ In EvWaitForWindow tr /\ In EvWaitForInputIdle tr) /\
  (setup_failure host = None ->
   host_subsystem host = IMAGE_SUBSYSTEM_WINDOWS_GUI ->
   In EvWaitForWindow tr) /\
  (forall t1 p s t2,
     tr = t1 ++ EvHook Initialize p s :: t2 ->
     In EvWaitForInputIdle t1 /\
     host_input_idle host = true /\
     (host_subsystem host = IMAGE_SUBSYSTEM_WINDOWS_GUI ->
      In EvWaitForWindow t1 /\ host_window_appears host = true) /\
     (AurieSuccess (fst (host_is_suspended host)) = false \/
      snd (host_is_suspended host) = true ->
      In EvResumeProcess t1)).
Proof.
  intros tr.
  assert (Hres : AurieSuccess (fst (host_is_suspended host)) = false \/
                 snd (host_is_suspended host) = true ->
                 needs_resume host = true).
  { unfold needs_resume. intros [->| ->]; [reflexivity|apply orb_true_r]. }
  assert (Hwin : is_windowed host = true <->
                 host_subsystem host = IMAGE_SUBSYSTEM_WINDOWS_GUI).
  { unfold is_windowed. apply Z.eqb_eq. }
  destruct (setup_failure host) as [f|] eqn:E.
  - destruct (attach_core_setup_failed host f E) as (w' & _ & Hrun & _).
    subst tr. rewrite (Hrun fuel). simpl.
    split; [|split; [|split]]; try discriminate.
    + intros t1 t2 H. apply singleton_split in H. discriminate.
    + intros t1 p s t2 H. apply singleton_split in H. discriminate.
  - destruct (attach_core_setup_done host E) as (w & Hsetup & _).
    destruct (attach_trace_shape host fuel w Hsetup)
      as (P & Q & out & Hrun & HP & HQ & _ & HhP & Hshut & _).
    subst tr. rewrite Hrun. simpl fst.
    split; [|split; [|split]].
    + intros t1 t2 H.
      destruct (split_in_middle P (gate_trace host) Q t1 _ t2 H)
        as (g1 & g2 & HG & -> & ->).
      * intros Hin. specialize (HP _ Hin). discriminate.
      * intros Hin. specialize (HQ _ Hin). discriminate.
      * destruct (gate_trace_window_split host g1 g2 HG) as (Hw & -> & ->).
        split; [now apply Hwin|]. split.
        -- intros Hr. rewrite (Hres Hr). apply in_or_app. right. now left.
        -- intros Hin. apply in_app_or in Hin. destruct Hin as [Hin|Hin].
           ++ destruct (host_window_appears host); simpl in Hin;
                [destruct Hin as [Hin|[]]; discriminate|destruct Hin].
           ++ specialize (HQ _ Hin). discriminate.
    + intros _ Hsub.
      assert (Hw : is_windowed host = false).
      { destruct (is_windowed host) eqn:Ew; [|reflexivity].
        exfalso. apply Hsub. now apply Hwin. }
      split.
      * intros Hin. apply in_app_or in Hin. destruct Hin as [Hin|Hin].
        { specialize (HP _ Hin). discriminate. }
        apply in_app_or in Hin. destruct Hin as [Hin|Hin].
        { unfold gate_trace in Hin. rewrite Hw in Hin.
          destruct (needs_resume host); simpl in Hin;
            intuition discriminate. }
        specialize (HQ _ Hin). discriminate.
      * apply in_or_app. right. apply in_or_app. left.
        unfold gate_trace. rewrite Hw.
        destruct (needs_resume host); simpl; auto.
    + intros _ Hsub. apply Hwin in Hsub.
      apply in_or_app. right. apply in_or_app. left.
      unfold gate_trace. rewrite Hsub.
      destruct (needs_resume host); simpl; auto.
    + intros t1 p s t2 H.
      destruct (gate_opens host) eqn:Eg.
      * assert (H' : (P ++ gate_trace host) ++ Q ++ []
                     = t1 ++ EvHook Initialize p s :: t2).
        { now rewrite app_nil_r, <- app_assoc. }
        destruct (split_in_middle _ _ _ _ _ _ H') as (q1 & q2 & _ & -> & _).
        { intros Hin. apply hooked_in in Hin.
          rewrite hooked_app, HhP, hooked_gate in Hin. destruct Hin. }
        { intros []. }
        destruct (gate_trace_open host Eg) as (Hidle & Hin_idle & Hin_res & Hin_win).
        split; [|split; [|split]].
        -- apply in_or_app. left. apply in_or_app. now right.
        -- exact Hidle.
        -- intros Hsub. apply Hwin in Hsub.
           destruct (Hin_win Hsub) as [Hi Ha]. split; [|exact Ha].
           apply in_or_app. left. apply in_or_app. now right.
        -- intros Hr. apply in_or_app. left. apply in_or_app. right.
           apply Hin_res. now apply Hres.
      * exfalso. rewrite (Hshut eq_refl), app_nil_r in H.
        assert (Hin : In (EvHook Initialize p s) (P ++ gate_trace host)).
        { rewrite H. apply in_elt. }
        apply hooked_in in Hin.
        rewrite hooked_app, HhP, hooked_gate in Hin. destruct Hin.
Qed.

Lemma readiness_gate_order_witness :
  exists t1 t2,
    fst (ArProcessAttach sample_host 5 initial_world)
    = t1 ++ EvHook Initialize 3 Success :: t2 /\
    In EvResumeProcess t1 /\
    In EvWaitForWindow t1 /\
    In EvWaitForInputIdle t1 /\
    host_window_appears sample_host = true /\
    host_input_idle sample_host = true.
Proof.
  exists [EvHook Preinitialize 2 ModuleInitializationFailed;
          EvHook Preinitialize 3 Success; EvUnmapImage 2;
          EvResumeProcess; EvWaitForWindow; EvWaitForInputIdle],
         [EvSleep; EvSleep; EvFreeLibraryAndExitThread;
          EvHook Unload 3 Success; EvUnmapImage 3;
          EvFreeMemory 3 9; EvFreeMemory 1 7].
  destruct (readiness_gate_order sample_host 5) as (_ & _ & _ & H).
  destruct (H [EvHook Preinitialize 2 ModuleInitializationFailed;
               EvHook Preinitialize 3 Success; EvUnmapImage 2;
               EvResumeProcess; EvWaitForWindow; EvWaitForInputIdle]
              3 Success
              [EvSleep; EvSleep; EvFreeLibraryAndExitThread;
               EvHook Unload 3 Success; EvUnmapImage 3;
               EvFreeMemory 3 9; EvFreeMemory 1 7]
              eq_refl)
    as (Hidle & Hret & Hwin & Hres).
  destruct (Hwin eq_refl) as [Hw Ha].
  split; [reflexivity|].
  split; [apply Hres; now right|].
  split; [exact Hw|]. split; [exact Hidle|]. split; [exact Ha|exact Hret].
Defined.

(** * The scenarios of the specification, run *)

(** Registry [host; A; B], A's preload fails, B's succeeds: after the
    preload pass and the purge the registry is [host; B], and the
    initialization pass calls B's Initialize only. *)
Example scenario_preload_failure :
  exists t1 w1 st t2 w2 t3 w3,
    attach_preload_loop sample_loaded = (t1, Returned tt w1) /\
    MdpPurgeMarkedModules w1 = (t2, Returned st w2) /\
    attach_init_loop w2 = (t3, Returned tt w3) /\
    addrs w2 = [1; 3] /\
    t3 = [EvHook Initialize 3 Success].
Proof. repeat eexists. Qed.

(** The whole attach sequence on [sample_host], END key down at the
    third poll. *)
Example scenario_suspended_windowed_host :
  fst (ArProcessAttach sample_host 5 initial_world)
  = [EvHook Preinitialize 2 ModuleInitializationFailed;
     EvHook Preinitialize 3 Success;
     EvUnmapImage 2;
     EvResumeProcess; EvWaitForWindow; EvWaitForInputIdle;
     EvHook Initialize 3 Success;
     EvSleep; EvSleep;
     EvFreeLibraryAndExitThread;
     EvHook Unload 3 Success; EvUnmapImage 3; EvFreeMemory 3 9;
     EvFreeMemory 1 7].
Proof. reflexivity. Qed.

(** [ArProcessDetach] entered with a null initial-image reference (the
    core setup had failed) reads through the null pointer. *)
Example scenario_detach_without_initial_image :
  ArProcessDetach initial_world = ([], Faulted).
Proof. reflexivity. Qed.

(** * Further properties of [AurieMain.cpp] *)

(** ** [DllMain] outside the unload *)

(** X1.  Unless the notification is a process detach with a null
    reserved argument, [DllMain] leaves the globals as they are and
    makes no call but [DisableThreadLibraryCalls] and [CreateThread]
    (both on process attach only: the worker is started, never run
    inside the notification); it answers FALSE in one case only, a
    process attach whose [CreateThread] gave no handle. *)
Theorem DllMain_leaves_globals host fdwReason lpvReserved w :
  fdwReason <> DLL_PROCESS_DETACH \/ lpvReserved <> 0%Z ->
  exists t b,
    DllMain host fdwReason lpvReserved w = (t, Returned b w) /\
    (b = false <->
     fdwReason = DLL_PROCESS_ATTACH /\ host_create_thread host = false) /\
    t = (if Z.eqb fdwReason DLL_PROCESS_ATTACH
         then EvDisableThreadLibraryCalls ::
              (if host_create_thread host then [EvCreateThread] else [])
         else []) /\
    hooked Preinitialize t = [] /\
    hooked Initialize t = [] /\
    hooked Unload t = [] /\
    unmapped t = [].
Proof.
  intros H. unfold DllMain, CreateThread, CloseHandle.
  destruct (Z.eqb_spec fdwReason DLL_PROCESS_ATTACH) as [Ea|Ea].
  - destruct (host_create_thread host) eqn:Et.
    + exists [EvDisableThreadLibraryCalls; EvCreateThread], true.
      split; [reflexivity|]. split; [|repeat split].
      split; [discriminate|intros [_ Hf]; discriminate].
    + exists [EvDisableThreadLibraryCalls], false.
      split; [reflexivity|]. split; [|repeat split].
      split; auto.
  - destruct (Z.eqb_spec fdwReason DLL_PROCESS_DETACH) as [Ed|Ed].
    + destruct H as [H|H]; [contradiction|].
      destruct (Z.eqb_spec lpvReserved 0) as [E0|E0]; [contradiction|].
      exists [], true. split; [reflexivity|]. split; [|repeat split].
      split; [discriminate|intros [Hf _]; contradiction].
    + exists [], true. split; [reflexivity|]. split; [|repeat split].
      split; [discriminate|intros [Hf _]; contradiction].
Qed.

Lemma DllMain_leaves_globals_witness :
  exists t b,
    DllMain sample_host DLL_PROCESS_ATTACH 0 sample_loaded
    = (t, Returned b sample_loaded) /\
    (b = false <->
     DLL_PROCESS_ATTACH = DLL_PROCESS_ATTACH /\
     host_create_thread sample_host = false) /\
    t = [EvDisableThreadLibraryCalls; EvCreateThread] /\
    hooked Preinitialize t = [] /\
    hooked Initialize t = [] /\
    hooked Unload t = [] /\
    unmapped t = [].
Proof.
  apply (DllMain_leaves_globals sample_host DLL_PROCESS_ATTACH 0 sample_loaded).
  left. discriminate.
Defined.

(** ** [ArProcessDetach] without an initial image *)

Lemma filter_not_initial_none (l : list ptr) :
  filter (fun p => negb (is_initial None p)) l = l.
Proof. simpl. apply filter_true. Qed.

(** X2.  Entered with a null initial-image reference, [ArProcessDetach]
    skips no record: it unmaps every linked record, in list order, and
    then reads through the null pointer at line 34; it never reaches
    the clearing of the list.  The detach notification with a null
    reserved argument ends the same way. *)
Theorem detach_without_initial_image host w :
  NoDup (addrs w) ->
  g_ArInitialImage w = None ->
  exists t,
    ArProcessDetach w = (t, Faulted) /\
    DllMain host DLL_PROCESS_DETACH 0 w = (t, Faulted) /\
    unmapped t = addrs w.
Proof.
  intros Hnd Hi.
  exists (trace_of (detach_trace None) (g_LdrModuleList w)).
  pose proof (ArProcessDetach_null w Hnd Hi) as Hrun.
  split; [exact Hrun|]. split.
  - rewrite DllMain_detach_unload. now rewrite (bind_faulted _ _ _ _ Hrun).
  - rewrite unmapped_detach. apply filter_not_initial_none.
Qed.

Lemma sample_orphaned_nodup : NoDup (addrs sample_orphaned).
Proof.
  unfold addrs. simpl. repeat constructor; simpl; intuition discriminate.
Qed.

Lemma detach_without_initial_image_witness :
  exists t,
    ArProcessDetach sample_orphaned = (t, Faulted) /\
    DllMain sample_host DLL_PROCESS_DETACH 0 sample_orphaned = (t, Faulted) /\
    unmapped t = [1; 2; 3].
Proof.
  exact (detach_without_initial_image sample_host sample_orphaned
           sample_orphaned_nodup eq_refl).
Defined.

(** X3.  [ArProcessDetach] is not re-entrant.  A first run from a
    registry that holds the initial image returns; a second run finds
    an empty list and a null reference, makes no call at all (no record
    is unmapped and no block is freed a second time) and reads through
    the null pointer. *)
Theorem detach_is_not_reentrant host w p0 m0 :
  NoDup (addrs w) ->
  g_ArInitialImage w = Some p0 ->
  lookup p0 w = Some m0 ->
  exists t w',
    ArProcessDetach w = (t, Returned tt w') /\
    ArProcessDetach w' = ([], Faulted) /\
    (ArProcessDetach ;; ArProcessDetach) w = (t, Faulted) /\
    DllMain host DLL_PROCESS_DETACH 0 w' = ([], Faulted).
Proof.
  intros Hnd Hi Hm.
  pose proof (ArProcessDetach_run w p0 m0 Hnd Hi Hm) as Hrun.
  assert (H2 : ArProcessDetach (torn_down w) = ([], Faulted)) by reflexivity.
  eexists; eexists. split; [exact Hrun|]. split; [exact H2|]. split.
  - rewrite (bind_returned _ _ _ _ _ _ Hrun), H2. simpl.
    now rewrite app_nil_r.
  - rewrite DllMain_detach_unload. now rewrite (bind_faulted _ _ _ _ H2).
Qed.

Lemma detach_is_not_reentrant_witness :
  exists t w',
    ArProcessDetach sample_loaded = (t, Returned tt w') /\
    ArProcessDetach w' = ([], Faulted) /\
    (ArProcessDetach ;; ArProcessDetach) sample_loaded = (t, Faulted) /\
    DllMain sample_host DLL_PROCESS_DETACH 0 w' = ([], Faulted).
Proof.
  exact (detach_is_not_reentrant sample_host sample_loaded 1 sample_host_image
           sample_loaded_nodup eq_refl eq_refl).
Defined.

(** ** What a failed core setup leaves behind *)

(** X4.  The early returns of [ArProcessAttach] undo nothing.  When the
    path query or the creation of the initial record fails, the globals
    are as at process attach, and a later detach notification with a
    null reserved argument reads through the null initial-image
    reference.  When the folder lookup fails, the initial image is
    already linked and referenced: it stays so, and a later detach
    notification frees its allocations and clears the registry. *)
Theorem failed_setup_leftovers host fuel f :
  setup_failure host = Some f ->
  exists w',
    ArProcessAttach host fuel initial_world
    = ([EvMessageBox (fatal_message f)], Returned tt w') /\
    match f with
    | QueryPathFailed | CreateInitialModuleFailed =>
        w' = initial_world /\
        DllMain host DLL_PROCESS_DETACH 0 w' = ([], Faulted)
    | GetInitialFolderFailed =>
        w' = {| g_LdrModuleList := [(1, snd (host_create_module host))];
                g_ArInitialImage := Some 1;
                next_node := 2 |} /\
        DllMain host DLL_PROCESS_DETACH 0 w'
        = (free_trace 1 (snd (host_create_module host)),
           Returned true (torn_down w'))
    end.
Proof.
  unfold setup_failure. intros H.
  unfold ArProcessAttach,
    QueryFullProcessImageNameW, MdpCreateModule, MdpGetImageFolder,
    MdpAddModuleToList, set_g_ArInitialImage, deref, MessageBoxA, emit, ret, bind.
  simpl.
  destruct (host_image_name host) as [name|].
  - destruct (AurieSuccess (fst (host_create_module host))); simpl in *.
    + destruct (AurieSuccess (host_image_folder host)) eqn:E; simpl in *;
        [discriminate|].
      injection H as <-. eexists. split; [reflexivity|].
      split; [reflexivity|].
      set (w' := {| g_LdrModuleList := [(1, snd (host_create_module host))];
                    g_ArInitialImage := Some 1;
                    next_node := 2 |}).
      assert (Hnd : NoDup (addrs w')).
      { unfold addrs. simpl. repeat constructor. intros []. }
      rewrite DllMain_detach_unload.
      rewrite (bind_returned _ _ _ _ _ _
                 (ArProcessDetach_run w' 1 (snd (host_create_module host))
                    Hnd eq_refl eq_refl)).
      simpl. unfold detach_trace, trace_of. simpl. now rewrite app_nil_r.
    + injection H as <-. eexists. split; [reflexivity|]. split; reflexivity.
  - injection H as <-. eexists. split; [reflexivity|]. split; reflexivity.
Qed.

Lemma failed_setup_leftovers_witness :
  ArProcessAttach sample_folderless_host 5 initial_world
  = ([EvMessageBox "Failed to get initial folder!"],
     Returned tt sample_folderless_world) /\
  DllMain sample_folderless_host DLL_PROCESS_DETACH 0 sample_folderless_world
  = ([EvFreeMemory 1 7], Returned true (torn_down sample_folderless_world)).
Proof.
  destruct (failed_setup_leftovers sample_folderless_host 5
              GetInitialFolderFailed eq_refl)
    as (w' & Hrun & Hw & Hd).
  subst w'. split; [exact Hrun|exact Hd].
Defined.

(** ** A gate that does not open *)

(** X5.  The two readiness waits have no timeout.  When one of them
    never returns (the window of a windowed host never appears, or the
    host never goes input-idle) the worker stays blocked there whatever
    time it is given: no Initialize hook is called, the second purge
    does not run, the worker neither polls the END key nor frees the
    library, and the registry stays as the first purge left it.  When
    it is the window that never appears, the input-idle wait is not
    even started. *)
Theorem closed_gate_blocks_worker host w_loaded :
  attach_core_setup host initial_world = ([], Returned true w_loaded) ->
  gate_opens host = false ->
  exists t t_pre w_pre t_purge w_purged,
    attach_preload_loop w_loaded = (t_pre, Returned tt w_pre) /\
    MdpPurgeMarkedModules w_pre = (t_purge, Returned Success w_purged) /\
    t = t_pre ++ t_purge ++ gate_trace host /\
    (forall fuel,
       ArProcessAttach host fuel initial_world = (t, Blocked w_purged)) /\
    hooked Initialize t = [] /\
    hooked Unload t = [] /\
    exit_free t /\
    (host_subsystem host = IMAGE_SUBSYSTEM_WINDOWS_GUI ->
     host_window_appears host = false ->
     ~ In EvWaitForInputIdle t).
Proof.
  intros Hsetup Hgate.
  destruct (attach_core_setup_inv host w_loaded Hsetup)
    as (_ & Hrun & [Hnd Hlt] & Hi & mods & Hl).
  set (w_pre := with_list w_loaded (preloaded (g_LdrModuleList w_loaded))).
  assert (Hnd1 : NoDup (addrs w_pre)).
  { unfold addrs, w_pre, preloaded. simpl. now rewrite over_nodes_addrs. }
  exists (trace_of preload_trace (g_LdrModuleList w_loaded) ++
          purge_trace (Some 1) (preloaded (g_LdrModuleList w_loaded)) ++
          gate_trace host),
         (trace_of preload_trace (g_LdrModuleList w_loaded)), w_pre,
         (purge_trace (Some 1) (preloaded (g_LdrModuleList w_loaded))),
         (with_list w_pre (preload_purged (Some 1) (g_LdrModuleList w_loaded))).
  split; [exact (attach_preload_loop_run w_loaded Hnd)|].
  split.
  { rewrite (MdpPurgeMarkedModules_run w_pre Hnd1).
    change (g_ArInitialImage w_pre) with (g_ArInitialImage w_loaded).
    rewrite Hi. reflexivity. }
  split; [reflexivity|].
  split.
  { intros fuel.
    rewrite Hrun, (attach_dispatch_run host fuel w_loaded 1 Hnd Hi), Hgate.
    reflexivity. }
  split.
  { now rewrite !hooked_app, hooked_preload, hooked_purge, hooked_gate. }
  split.
  { now rewrite !hooked_app, hooked_preload, hooked_purge, hooked_gate. }
  split.
  { apply exit_free_app; [|apply exit_free_app].
    - intros e He. exact (proj2 (preload_trace_plain _ _ He)).
    - intros e He. exact (proj2 (purge_trace_plain _ _ _ He)).
    - apply gate_trace_exit_free. }
  intros Hsub Happ Hin.
  apply in_app_or in Hin. destruct Hin as [Hin|Hin].
  { pose proof (proj1 (preload_trace_plain _ _ Hin)). discriminate. }
  apply in_app_or in Hin. destruct Hin as [Hin|Hin].
  { pose proof (proj1 (purge_trace_plain _ _ _ Hin)). discriminate. }
  unfold gate_trace, is_windowed in Hin.
  rewrite Hsub, Happ in Hin. simpl in Hin.
  destruct (needs_resume host); simpl in Hin; intuition discriminate.
Qed.

Lemma closed_gate_blocks_worker_witness :
  attach_core_setup sample_windowless_host initial_world
  = ([], Returned true sample_loaded) /\
  gate_opens sample_windowless_host = false /\
  exists w_purged,
    (forall fuel,
       ArProcessAttach sample_windowless_host fuel initial_world
       = ([EvHook Preinitialize 2 ModuleInitializationFailed;
           EvHook Preinitialize 3 Success;
           EvUnmapImage 2;
           EvResumeProcess; EvWaitForWindow],
          Blocked w_purged)) /\
    addrs w_purged = [1; 3].
Proof.
  split; [reflexivity|]. split; [reflexivity|].
  destruct (closed_gate_blocks_worker sample_windowless_host sample_loaded
              eq_refl eq_refl)
    as (t & t_pre & w_pre & t_purge & w_purged & Hpre & Hpurge & Ht & Hrun & _).
  injection Hpre as <- <-. injection Hpurge as <- <-.
  exists (with_list
            (with_list sample_loaded (preloaded (g_LdrModuleList sample_loaded)))
            (preload_purged (Some 1) (g_LdrModuleList sample_loaded))).
  split; [|reflexivity].
  intros fuel. rewrite (Hrun fuel), Ht. reflexivity.
Defined.

(** ** Message boxes *)

Lemma messages_app a b : messages (a ++ b) = messages a ++ messages b.
Proof.
  induction a as [|e a IH]; [reflexivity|].
  destruct e; simpl; try exact IH. now rewrite IH.
Qed.

Lemma messages_dispatch stage p m Entry :
  messages (dispatch_trace stage p m Entry) = [].
Proof.
  unfold dispatch_trace. destruct (MarkedForPurge (Flags m)); [reflexivity|].
  destruct Entry; reflexivity.
Qed.

Lemma messages_free p m : messages (free_trace p m) = [].
Proof. unfold free_trace. induction (MemoryAllocations m); simpl; auto. Qed.

Lemma messages_unmap call_unload p m :
  messages (unmap_trace call_unload p m) = [].
Proof.
  unfold unmap_trace. rewrite messages_app. simpl. rewrite messages_free.
  destruct call_unload; [now rewrite messages_dispatch|reflexivity].
Qed.

Lemma messages_trace_of ev l :
  (forall p m, messages (ev p m) = []) -> messages (trace_of ev l) = [].
Proof.
  intros H. unfold trace_of. induction l as [|n l IH]; [reflexivity|].
  simpl. now rewrite messages_app, H, IH.
Qed.

Lemma messages_preload l : messages (trace_of preload_trace l) = [].
Proof. apply messages_trace_of. intros. apply messages_dispatch. Qed.

Lemma messages_init l : messages (trace_of init_trace l) = [].
Proof.
  apply messages_trace_of. intros p m. unfold init_trace.
  destruct (IsInitialized (Flags m)); [reflexivity|apply messages_dispatch].
Qed.

Lemma messages_purge init l : messages (purge_trace init l) = [].
Proof. apply messages_trace_of. intros. apply messages_unmap. Qed.

Lemma messages_detach init l : messages (trace_of (detach_trace init) l) = [].
Proof.
  apply messages_trace_of. intros p m. unfold detach_trace.
  destruct (is_initial init p); [reflexivity|apply messages_unmap].
Qed.

Lemma messages_gate host : messages (gate_trace host) = [].
Proof.
  unfold gate_trace.
  destruct (needs_resume host), (is_windowed host), (host_window_appears host);
    reflexivity.
Qed.

Lemma messages_sleep n : messages (repeat EvSleep n) = [].
Proof. induction n; simpl; auto. Qed.

Lemma messages_tail host fuel w p0 m0 :
  NoDup (addrs w) ->
  g_ArInitialImage w = Some p0 ->
  lookup p0 w = Some m0 ->
  messages (fst (attach_tail host fuel w)) = [].
Proof.
  intros Hnd Hi Hm. rewrite (attach_tail_run host fuel w p0 m0 Hnd Hi Hm).
  destruct (sleeps_before_end host fuel 0); simpl.
  - rewrite messages_app, messages_sleep. simpl.
    now rewrite messages_app, messages_detach, messages_free.
  - apply messages_sleep.
Qed.

(** X6.  The only message boxes of the attach worker are the three
    fatal ones: a run shows one box, with the text of the setup step
    that failed, when the core setup fails, and no box at all when it
    succeeds, whatever the hooks of the mods answer and however the run
    ends. *)
Theorem message_box_only_on_setup_failure host fuel :
  messages (fst (ArProcessAttach host fuel initial_world))
  = match setup_failure host with
    | Some f => [fatal_message f]
    | None => []
    end.
Proof.
  destruct (setup_failure host) as [f|] eqn:E.
  - destruct (attach_core_setup_failed host f E) as (w' & _ & Hrun & _).
    now rewrite (Hrun fuel).
  - destruct (attach_core_setup_done host E)
      as (w & _ & Hrun & [Hnd Hlt] & Hi & mods & Hl).
    assert (Hm0 : lookup 1 w = Some (snd (host_create_module host))).
    { unfold lookup. rewrite Hl. reflexivity. }
    rewrite Hrun, (attach_dispatch_run host fuel w 1 Hnd Hi).
    destruct (gate_opens host); simpl fst.
    + rewrite !messages_app, messages_preload, !messages_purge, messages_gate,
        messages_init. simpl.
      apply (messages_tail host fuel _ 1
               (init_step 1 (preload_step 1 (snd (host_create_module host))))).
      * unfold addrs. simpl. now apply init_purged_nodup.
      * exact Hi.
      * now apply lookup_init_purged.
    + now rewrite !messages_app, messages_preload, messages_purge, messages_gate.
Qed.

(** ** The preload pass comes first *)

(** X7.  The preload pass is over before anything else happens: at the
    moment a Preinitialize hook is called, the host process has not
    been resumed, no readiness wait has been made, no module has been
    unmapped, no Initialize hook has been called, and the worker has
    neither slept nor freed the library.  Mods are thus preloaded while
    a host launched suspended is still suspended. *)
Theorem preload_precedes_everything host fuel :
  forall t1 p s t2,
    fst (ArProcessAttach host fuel initial_world)
    = t1 ++ EvHook Preinitialize p s :: t2 ->
    gate_free t1 /\
    exit_free t1 /\
    unmapped t1 = [] /\
    hooked Initialize t1 = [] /\
    hooked Unload t1 = [] /\
    messages t1 = [].
Proof.
  intros t1 p s t2 H.
  destruct (setup_failure host) as [f|] eqn:E.
  - destruct (attach_core_setup_failed host f E) as (w' & _ & Hrun & _).
    rewrite (Hrun fuel) in H. simpl in H.
    apply singleton_split in H. discriminate.
  - destruct (attach_core_setup_done host E)
      as (w & _ & Hrun & [Hnd Hlt] & Hi & mods & Hl).
    assert (Hm0 : lookup 1 w = Some (snd (host_create_module host))).
    { unfold lookup. rewrite Hl. reflexivity. }
    rewrite Hrun in H.
    pose proof (attach_dispatch_hooked Preinitialize host fuel w 1 _
                  eq_refl Hnd Hi Hm0) as Hh.
    assert (Hsplit : exists rest,
              fst (attach_dispatch host fuel w)
              = trace_of preload_trace (g_LdrModuleList w) ++ rest).
    { rewrite (attach_dispatch_run host fuel w 1 Hnd Hi).
      destruct (gate_opens host); eexists; reflexivity. }
    destruct Hsplit as [rest Hsplit].
    rewrite Hsplit in H, Hh.
    assert (Hrest : hooked Preinitialize rest = []).
    { rewrite hooked_app in Hh. apply app_inv_head in Hh. rewrite Hh.
      destruct (gate_opens host); [now rewrite hooked_init|reflexivity]. }
    assert (H' : [] ++ trace_of preload_trace (g_LdrModuleList w) ++ rest
                 = t1 ++ EvHook Preinitialize p s :: t2) by exact H.
    destruct (split_in_middle _ _ _ _ _ _ H') as (g1 & g2 & Hg & -> & _).
    { intros []. }
    { intros Hin. apply hooked_in in Hin. rewrite Hrest in Hin. destruct Hin. }
    simpl.
    assert (Hin1 : forall e, In e g1 ->
              In e (trace_of preload_trace (g_LdrModuleList w))).
    { intros e He. rewrite Hg. apply in_or_app. now left. }
    assert (Hproj : unmapped g1 = [] /\ hooked Initialize g1 = [] /\
                    hooked Unload g1 = [] /\ messages g1 = []).
    { pose proof (unmapped_trace_of preload_trace (g_LdrModuleList w)) as Hu.
      rewrite (flat_map_nil _ _
                 (fun n _ => unmapped_dispatch Preinitialize (fst n) (snd n)
                               (ModulePreinitialize (snd n)))) in Hu.
      pose proof (hooked_preload Initialize (g_LdrModuleList w)) as Hhi.
      pose proof (hooked_preload Unload (g_LdrModuleList w)) as Hhu.
      pose proof (messages_preload (g_LdrModuleList w)) as Hms.
      simpl in Hhi, Hhu.
      rewrite Hg in Hu, Hhi, Hhu, Hms.
      rewrite unmapped_app in Hu. rewrite hooked_app in Hhi, Hhu.
      rewrite messages_app in Hms.
      apply app_eq_nil in Hu, Hhi, Hhu, Hms. tauto. }
    split; [intros e He; exact (proj1 (preload_trace_plain _ _ (Hin1 e He)))|].
    split; [intros e He; exact (proj2 (preload_trace_plain _ _ (Hin1 e He)))|].
    exact Hproj.
Qed.

Lemma preload_precedes_everything_witness :
  exists t1 t2,
    fst (ArProcessAttach sample_host 5 initial_world)
    = t1 ++ EvHook Preinitialize 3 Success :: t2 /\
    In EvResumeProcess t2 /\
    gate_free t1 /\
    unmapped t1 = [].
Proof.
  exists [EvHook Preinitialize 2 ModuleInitializationFailed],
         [EvUnmapImage 2;
          EvResumeProcess; EvWaitForWindow; EvWaitForInputIdle;
          EvHook Initialize 3 Success;
          EvSleep; EvSleep; EvFreeLibraryAndExitThread;
          EvHook Unload 3 Success; EvUnmapImage 3;
          EvFreeMemory 3 9; EvFreeMemory 1 7].
  destruct (preload_precedes_everything sample_host 5
              [EvHook Preinitialize 2 ModuleInitializationFailed] 3 Success
              [EvUnmapImage 2;
               EvResumeProcess; EvWaitForWindow; EvWaitForInputIdle;
               EvHook Initialize 3 Success;
               EvSleep; EvSleep; EvFreeLibraryAndExitThread;
               EvHook Unload 3 Success; EvUnmapImage 3;
               EvFreeMemory 3 9; EvFreeMemory 1 7]
              eq_refl)
    as (Hg & _ & Hu & _).
  split; [reflexivity|]. split; [simpl; auto|]. split; [exact Hg|exact Hu].
Defined.

(** ** Every mod is unmapped once *)

Lemma flat_map_singleton {A B} (f : A -> B) l :
  flat_map (fun a => [f a]) l = map f l.
Proof. induction l as [|a l IH]; simpl; [reflexivity|now rewrite IH]. Qed.

Lemma unmapped_purge init l :
  unmapped (purge_trace init l) = map fst (filter (purgeable init) l).
Proof.
  unfold purge_trace. rewrite unmapped_trace_of, <- flat_map_singleton.
  apply flat_map_ext. intros n. apply unmapped_unmap.
Qed.

Lemma unmapped_preload l : unmapped (trace_of preload_trace l) = [].
Proof.
  rewrite unmapped_trace_of. apply flat_map_nil. intros n _.
  apply unmapped_dispatch.
Qed.

Lemma unmapped_init l : unmapped (trace_of init_trace l) = [].
Proof.
  rewrite unmapped_trace_of. apply flat_map_nil. intros n _.
  unfold init_trace. destruct (IsInitialized (Flags (snd n))); [reflexivity|].
  apply unmapped_dispatch.
Qed.

Lemma unmapped_gate host : unmapped (gate_trace host) = [].
Proof.
  unfold gate_trace.
  destruct (needs_resume host), (is_windowed host), (host_window_appears host);
    reflexivity.
Qed.

Lemma unmapped_attach_dispatch host fuel w p0 m0 :
  NoDup (addrs w) ->
  g_ArInitialImage w = Some p0 ->
  lookup p0 w = Some m0 ->
  unmapped (fst (attach_dispatch host fuel w))
  = map fst (filter (purgeable (Some p0)) (preloaded (g_LdrModuleList w))) ++
    (if gate_opens host
     then
       map fst (filter (purgeable (Some p0))
                       (initialized (Some p0) (g_LdrModuleList w))) ++
       match sleeps_before_end host fuel 0 with
       | Some _ =>
           filter (fun p => negb (Nat.eqb p p0))
                  (map fst (init_purged (Some p0) (g_LdrModuleList w)))
       | None => []
       end
     else []).
Proof.
  intros Hnd Hi Hm. rewrite (attach_dispatch_run host fuel w p0 Hnd Hi).
  destruct (gate_opens host); simpl fst.
  - rewrite !unmapped_app, unmapped_preload, !unmapped_purge, unmapped_gate,
      unmapped_init. simpl. f_equal. f_equal.
    rewrite (attach_tail_run host fuel _ p0 (init_step p0 (preload_step p0 m0))).
    + destruct (sleeps_before_end host fuel 0); simpl.
      * rewrite unmapped_app, unmapped_sleep. simpl.
        now rewrite unmapped_app, unmapped_detach, unmapped_free, app_nil_r.
      * apply unmapped_sleep.
    + unfold addrs. simpl. now apply init_purged_nodup.
    + exact Hi.
    + now apply lookup_init_purged.
  - rewrite !unmapped_app, unmapped_preload, unmapped_purge, unmapped_gate.
    simpl. now rewrite app_nil_r.
Qed.

Lemma partition_permutation {A} (f : A -> bool) l :
  Permutation (filter f l ++ filter (fun a => negb (f a)) l) l.
Proof.
  induction l as [|a l IH]; simpl; [constructor|].
  destruct (f a); simpl.
  - now constructor.
  - apply Permutation_sym. apply Permutation_cons_app.
    now apply Permutation_sym.
Qed.

Lemma filter_permutation {A} (f : A -> bool) l l' :
  Permutation l l' -> Permutation (filter f l) (filter f l').
Proof.
  induction 1 as [|a l l' H IH|a b l|l l' l'' H1 IH1 H2 IH2]; simpl.
  - constructor.
  - destruct (f a); [now constructor|exact IH].
  - destruct (f a), (f b); try reflexivity. constructor.
  - now transitivity (filter f l').
Qed.

Lemma purged_are_not_initial p0 l :
  filter (fun p => negb (Nat.eqb p p0))
         (map fst (filter (purgeable (Some p0)) l))
  = map fst (filter (purgeable (Some p0)) l).
Proof.
  induction l as [|[q m] l IH]; simpl; [reflexivity|].
  destruct (purgeable (Some p0) (q, m)) eqn:E; simpl; [|exact IH].
  unfold purgeable in E. simpl in E.
  apply andb_true_iff in E. destruct E as [_ E].
  rewrite E. now rewrite IH.
Qed.

Lemma purge_permutation init l :
  Permutation (map fst (filter (purgeable init) l) ++ map fst (purge_keep init l))
              (map fst l).
Proof.
  unfold purge_keep. rewrite <- map_app. apply Permutation_map.
  apply partition_permutation.
Qed.

Lemma unmaps_permutation p0 l :
  Permutation
    (map fst (filter (purgeable (Some p0)) (preloaded l)) ++
     map fst (filter (purgeable (Some p0)) (initialized (Some p0) l)) ++
     filter (fun p => negb (Nat.eqb p p0)) (map fst (init_purged (Some p0) l)))
    (filter (fun p => negb (Nat.eqb p p0)) (map fst l)).
Proof.
  pose proof (purged_are_not_initial p0 (preloaded l)) as E1.
  pose proof (purged_are_not_initial p0 (initialized (Some p0) l)) as E2.
  unfold ptr in *. rewrite <- E1, <- E2.
  rewrite <- !filter_app. apply filter_permutation.
  pose proof (purge_permutation (Some p0) (preloaded l)) as H1.
  pose proof (purge_permutation (Some p0) (initialized (Some p0) l)) as H2.
  assert (Ha : map fst (preloaded l) = map fst l)
    by apply over_nodes_addrs.
  assert (Hb : map fst (initialized (Some p0) l)
               = map fst (preload_purged (Some p0) l))
    by apply over_nodes_addrs.
  unfold ptr in *. rewrite Ha in H1. rewrite Hb in H2.
  change (purge_keep (Some p0) (preloaded l))
    with (preload_purged (Some p0) l) in H1.
  change (purge_keep (Some p0) (initialized (Some p0) l))
    with (init_purged (Some p0) l) in H2.
  rewrite <- H1. apply Permutation_app_head. exact H2.
Qed.

(** X8.  Over the whole attach-then-detach sequence no module is
    unmapped twice and the initial image is never unmapped, however the
    run ends; in a run that goes through to the end (the gate opens, the
    END key is seen down) every mod that was mapped is unmapped exactly
    once, by one of the two purges or by the detach pass. *)
Theorem every_mod_unmapped_once host fuel w_loaded :
  attach_core_setup host initial_world = ([], Returned true w_loaded) ->
  NoDup (unmapped (fst (ArProcessAttach host fuel initial_world))) /\
  (forall p,
     In p (unmapped (fst (ArProcessAttach host fuel initial_world))) ->
     In p (addrs w_loaded) /\ p <> 1) /\
  (forall n,
     gate_opens host = true ->
     n < fuel ->
     (forall j, j < n -> host_end_key host j = 0%Z) ->
     host_end_key host n <> 0%Z ->
     Permutation (unmapped (fst (ArProcessAttach host fuel initial_world)))
                 (filter (fun p => negb (Nat.eqb p 1)) (addrs w_loaded))).
Proof.
  intros Hsetup.
  destruct (attach_core_setup_inv host w_loaded Hsetup)
    as (_ & Hrun & [Hnd Hlt] & Hi & mods & Hl).
  assert (Hm0 : lookup 1 w_loaded = Some (snd (host_create_module host))).
  { unfold lookup. rewrite Hl. reflexivity. }
  rewrite Hrun, (unmapped_attach_dispatch host fuel w_loaded 1 _ Hnd Hi Hm0).
  pose proof (unmaps_permutation 1 (g_LdrModuleList w_loaded)) as HP.
  set (A := map fst (filter (purgeable (Some 1))
                            (preloaded (g_LdrModuleList w_loaded)))) in *.
  set (B := map fst (filter (purgeable (Some 1))
                            (initialized (Some 1) (g_LdrModuleList w_loaded)))) in *.
  set (C := filter (fun p => negb (Nat.eqb p 1))
                   (map fst (init_purged (Some 1) (g_LdrModuleList w_loaded)))) in *.
  assert (Hall : NoDup (A ++ B ++ C)).
  { apply (Permutation_NoDup (Permutation_sym HP)).
    apply NoDup_filter. exact Hnd. }
  assert (Hin : forall p, In p (A ++ B ++ C) -> In p (addrs w_loaded) /\ p <> 1).
  { intros p Hp. apply (Permutation_in _ HP) in Hp.
    apply filter_In in Hp. destruct Hp as [Hp Hne]. split; [exact Hp|].
    intros ->. discriminate. }
  assert (HAB : NoDup (A ++ B)).
  { rewrite app_assoc in Hall. exact (NoDup_app_remove_r _ _ Hall). }
  assert (HA : NoDup A) by exact (NoDup_app_remove_r _ _ HAB).
  split; [|split].
  - destruct (gate_opens host); [|now rewrite app_nil_r].
    destruct (sleeps_before_end host fuel 0); [exact Hall|].
    now rewrite app_nil_r.
  - intros p Hp. apply Hin.
    destruct (gate_opens host).
    + destruct (sleeps_before_end host fuel 0); [exact Hp|].
      rewrite app_nil_r in Hp. rewrite app_assoc. apply in_or_app. now left.
    + rewrite app_nil_r in Hp. apply in_or_app. now left.
  - intros n Hg Hn Hup Hdown. rewrite Hg.
    rewrite (sleeps_before_end_pressed host n fuel 0 Hn Hup Hdown).
    exact HP.
Qed.

Lemma every_mod_unmapped_once_witness :
  attach_core_setup sample_host initial_world = ([], Returned true sample_loaded) /\
  unmapped (fst (ArProcessAttach sample_host 5 initial_world)) = [2; 3] /\
  Permutation (unmapped (fst (ArProcessAttach sample_host 5 initial_world)))
              (filter (fun p => negb (Nat.eqb p 1)) (addrs sample_loaded)).
Proof.
  split; [reflexivity|]. split; [reflexivity|].
  destruct (every_mod_unmapped_once sample_host 5 sample_loaded eq_refl)
    as (_ & _ & H).
  apply (H 2).
  - reflexivity.
  - lia.
  - intros [|[|j]] Hj; [reflexivity|reflexivity|lia].
  - discriminate.
Defined.

(** ** How the worker can end *)

Lemma lookup_preload_purged w p0 m0 :
  lookup p0 w = Some m0 ->
  lookup p0 (with_list w (preload_purged (Some p0) (g_LdrModuleList w)))
  = Some (preload_step p0 m0).
Proof.
  unfold lookup. simpl. intros H. unfold preload_purged, preloaded.
  now rewrite find_node_purge_keep, find_node_over_nodes, H.
Qed.

(** X9.  Started from the state at process attach, the worker never
    runs into a null or dangling pointer nor into an invalidated
    iterator: it either returns or is blocked.  When it returns, either
    the core setup failed or the registry has been emptied and the
    initial-image reference nulled.  When it is blocked (in a readiness
    wait or polling the END key) the initial image is linked and
    referenced, so that a detach notification arriving then runs
    [ArProcessDetach] to its end. *)
Theorem attach_worker_never_faults host fuel :
  match snd (ArProcessAttach host fuel initial_world) with
  | Returned _ w' =>
      setup_failure host <> None \/
      (g_LdrModuleList w' = [] /\ g_ArInitialImage w' = None)
  | Blocked w' =>
      setup_failure host = None /\
      g_ArInitialImage w' = Some 1 /\
      In 1 (addrs w') /\
      exists t w'', DllMain host DLL_PROCESS_DETACH 0 w' = (t, Returned true w'')
  | Faulted => False
  end.
Proof.
  destruct (setup_failure host) as [f|] eqn:E.
  - destruct (attach_core_setup_failed host f E) as (w' & _ & Hrun & _).
    rewrite (Hrun fuel). simpl. left. discriminate.
  - destruct (attach_core_setup_done host E)
      as (w & _ & Hrun & [Hnd Hlt] & Hi & mods & Hl).
    assert (Hm0 : lookup 1 w = Some (snd (host_create_module host))).
    { unfold lookup. rewrite Hl. reflexivity. }
    assert (Hsafe : forall w' m',
              NoDup (addrs w') -> g_ArInitialImage w' = Some 1 ->
              lookup 1 w' = Some m' ->
              g_ArInitialImage w' = Some 1 /\
              In 1 (addrs w') /\
              exists t w'',
                DllMain host DLL_PROCESS_DETACH 0 w' = (t, Returned true w'')).
    { intros w' m' Hnd' Hi' Hm'. split; [exact Hi'|].
      split; [exact (find_node_in_addrs _ _ _ Hm')|].
      eexists; eexists. rewrite DllMain_detach_unload.
      rewrite (bind_returned _ _ _ _ _ _
                 (ArProcessDetach_run w' 1 m' Hnd' Hi' Hm')).
      reflexivity. }
    rewrite Hrun, (attach_dispatch_run host fuel w 1 Hnd Hi).
    match goal with
    | |- context [attach_tail host fuel ?W] => set (w_ready := W)
    end.
    assert (Hndr : NoDup (addrs w_ready)).
    { unfold addrs, w_ready. simpl. now apply init_purged_nodup. }
    assert (Hmr : lookup 1 w_ready
                  = Some (init_step 1 (preload_step 1
                                         (snd (host_create_module host)))))
      by now apply lookup_init_purged.
    rewrite (attach_tail_run host fuel w_ready 1 _ Hndr Hi Hmr).
    destruct (gate_opens host).
    + destruct (sleeps_before_end host fuel 0); simpl.
      * right. split; reflexivity.
      * split; [reflexivity|]. exact (Hsafe w_ready _ Hndr Hi Hmr).
    + cbn [snd]. split; [reflexivity|].
      apply (Hsafe _ (preload_step 1 (snd (host_create_module host)))).
      * unfold addrs. simpl. unfold preload_purged, preloaded.
        apply purge_keep_nodup. now rewrite over_nodes_addrs.
      * exact Hi.
      * exact (lookup_preload_purged w 1 _ Hm0).
Qed.

(** ** The registry the worker polls over *)

Lemma in_over_nodes step p m' l :
  In (p, m') (over_nodes step l) -> exists m, In (p, m) l /\ m' = step p m.
Proof.
  unfold over_nodes. rewrite in_map_iff. intros [[q m] [E Hin]].
  injection E as -> <-. exists m. auto.
Qed.

Lemma survivors_are_initialized p0 l p m :
  In (p, m) (init_purged (Some p0) l) ->
  p <> p0 ->
  IsPreloaded (Flags m) = true /\
  IsInitialized (Flags m) = true /\
  MarkedForPurge (Flags m) = false.
Proof.
  intros Hin Hp.
  assert (Hne : Nat.eqb p p0 = false) by now apply Nat.eqb_neq.
  unfold init_purged, purge_keep in Hin. apply filter_In in Hin.
  destruct Hin as [Hin Hk4]. unfold purgeable in Hk4. simpl in Hk4.
  rewrite Hne, andb_true_r in Hk4. apply negb_true_iff in Hk4.
  unfold initialized in Hin. apply in_over_nodes in Hin.
  destruct Hin as (m2 & Hin & ->).
  unfold preload_purged, purge_keep in Hin. apply filter_In in Hin.
  destruct Hin as [Hin Hk2]. unfold purgeable in Hk2. simpl in Hk2.
  rewrite Hne, andb_true_r in Hk2. apply negb_true_iff in Hk2.
  unfold preloaded in Hin. apply in_over_nodes in Hin.
  destruct Hin as (m1 & _ & ->).
  assert (Hpre : IsPreloaded (Flags (preload_step p m1)) = true).
  { unfold preload_step in *.
    destruct (AurieSuccess (dispatch_status p m1 (ModulePreinitialize m1)));
      [reflexivity|discriminate]. }
  revert Hk4. unfold init_step.
  destruct (IsInitialized (Flags (preload_step p m1))) eqn:Ei.
  - intros _. auto.
  - destruct (AurieSuccess
                (dispatch_status p (preload_step p m1)
                   (ModuleInitialize (preload_step p m1)))); simpl.
    + intros _. auto.
    + discriminate.
Qed.

(** X10.  While the worker polls the END key, the registry holds,
    besides the initial image, only mods that went through both
    passes: each has [IsPreloaded] and [IsInitialized] set and is not
    marked for purge. *)
Theorem polled_registry_is_initialized host fuel w_loaded :
  attach_core_setup host initial_world = ([], Returned true w_loaded) ->
  gate_opens host = true ->
  (forall j, j < fuel -> host_end_key host j = 0%Z) ->
  exists t w_ready,
    ArProcessAttach host fuel initial_world = (t, Blocked w_ready) /\
    forall p m,
      In (p, m) (g_LdrModuleList w_ready) ->
      p <> 1 ->
      IsPreloaded (Flags m) = true /\
      IsInitialized (Flags m) = true /\
      MarkedForPurge (Flags m) = false.
Proof.
  intros Hsetup Hgate Hup.
  destruct (attach_core_setup_inv host w_loaded Hsetup)
    as (_ & Hrun & [Hnd Hlt] & Hi & mods & Hl).
  assert (Hm0 : lookup 1 w_loaded = Some (snd (host_create_module host))).
  { unfold lookup. rewrite Hl. reflexivity. }
  rewrite Hrun, (attach_dispatch_run host fuel w_loaded 1 Hnd Hi), Hgate.
  match goal with
  | |- context [attach_tail host fuel ?W] => set (w_ready := W)
  end.
  assert (Hndr : NoDup (addrs w_ready)).
  { unfold addrs, w_ready. simpl. now apply init_purged_nodup. }
  assert (Hmr : lookup 1 w_ready
                = Some (init_step 1 (preload_step 1
                                       (snd (host_create_module host)))))
    by now apply lookup_init_purged.
  rewrite (attach_tail_run host fuel w_ready 1 _ Hndr Hi Hmr).
  rewrite (sleeps_before_end_idle host fuel 0 Hup).
  eexists; exists w_ready. split; [reflexivity|].
  intros p m Hin Hp.
  exact (survivors_are_initialized 1 (g_LdrModuleList w_loaded) p m Hin Hp).
Qed.

Lemma polled_registry_is_initialized_witness :
  attach_core_setup sample_console_host initial_world
  = ([], Returned true sample_console_loaded) /\
  gate_opens sample_console_host = true /\
  exists t w_ready,
    ArProcessAttach sample_console_host 4 initial_world = (t, Blocked w_ready) /\
    forall p m,
      In (p, m) (g_LdrModuleList w_ready) ->
      p <> 1 ->
      IsPreloaded (Flags m) = true /\
      IsInitialized (Flags m) = true /\
      MarkedForPurge (Flags m) = false.
Proof.
  split; [reflexivity|]. split; [reflexivity|].
  apply (polled_registry_is_initialized sample_console_host 4
           sample_console_loaded).
  - reflexivity.
  - reflexivity.
  - intros j _. reflexivity.
Defined.

(** * The preload failure, record by record *)

(** C1.  Take any record of the registry at line 128 that is not yet
    marked and whose Preinitialize hook answers a failure.  The preload
    pass calls that hook and sets the record's [MarkedForPurge] flag
    (no other change), and no Initialize hook is called for it anywhere
    in the attach sequence.  When the record is not the initial image,
    the purge that follows the pass unmaps it and unlinks it; when it
    is the initial image, the purge keeps it, marked, in the registry.
    Conversely every failing Preinitialize event of the run comes from
    such a record. *)
Theorem failed_preload_is_marked_and_purged host fuel w_loaded p m f :
  attach_core_setup host initial_world = ([], Returned true w_loaded) ->
  lookup p w_loaded = Some m ->
  MarkedForPurge (Flags m) = false ->
  ModulePreinitialize m = Some f ->
  AurieSuccess (f p (ImagePath m)) = false ->
  exists t_pre w_pre t_purge w_purged t_rest out,
    attach_preload_loop w_loaded = (t_pre, Returned tt w_pre) /\
    MdpPurgeMarkedModules w_pre = (t_purge, Returned Success w_purged) /\
    ArProcessAttach host fuel initial_world = (t_pre ++ t_purge ++ t_rest, out) /\
    In (EvHook Preinitialize p (f p (ImagePath m))) t_pre /\
    lookup p w_pre = Some (set_MarkedForPurge m) /\
    (forall s', ~ In (EvHook Initialize p s') (t_pre ++ t_purge ++ t_rest)) /\
    (g_ArInitialImage w_loaded <> Some p ->
     In (EvUnmapImage p) t_purge /\ ~ In p (addrs w_purged)) /\
    (g_ArInitialImage w_loaded = Some p ->
     ~ In (EvUnmapImage p) t_purge /\
     lookup p w_purged = Some (set_MarkedForPurge m)) /\
    (forall q s,
       In (EvHook Preinitialize q s) (t_pre ++ t_purge ++ t_rest) ->
       AurieSuccess s = false ->
       exists mq fq,
         lookup q w_loaded = Some mq /\
         MarkedForPurge (Flags mq) = false /\
         ModulePreinitialize mq = Some fq /\
         s = fq q (ImagePath mq)).
Proof.
  intros Hsetup Hm Hunmarked Hf Hfail.
  destruct (attach_core_setup_inv host w_loaded Hsetup)
    as (_ & Hrun & [Hnd Hlt] & Hi & mods & Hl).
  assert (Hm0 : lookup 1 w_loaded = Some (snd (host_create_module host))).
  { unfold lookup. rewrite Hl. reflexivity. }
  set (w_pre := with_list w_loaded (preloaded (g_LdrModuleList w_loaded))).
  assert (Hnd1 : NoDup (map fst (preloaded (g_LdrModuleList w_loaded)))).
  { unfold preloaded. now rewrite over_nodes_addrs. }
  pose proof (attach_dispatch_run host fuel w_loaded 1 Hnd Hi) as Hd.
  exists (trace_of preload_trace (g_LdrModuleList w_loaded)), w_pre,
         (purge_trace (Some 1) (preloaded (g_LdrModuleList w_loaded))),
         (with_list w_pre (preload_purged (Some 1) (g_LdrModuleList w_loaded))).
  assert (Hsplit : exists t_rest out,
            attach_dispatch host fuel w_loaded
            = (trace_of preload_trace (g_LdrModuleList w_loaded) ++
               purge_trace (Some 1) (preloaded (g_LdrModuleList w_loaded)) ++
               t_rest, out)).
  { rewrite Hd. destruct (gate_opens host); eexists; eexists; reflexivity. }
  destruct Hsplit as (t_rest & out & Hsplit).
  exists t_rest, out.
  assert (Htr : fst (attach_dispatch host fuel w_loaded)
                = trace_of preload_trace (g_LdrModuleList w_loaded) ++
                  purge_trace (Some 1) (preloaded (g_LdrModuleList w_loaded)) ++
                  t_rest)
    by now rewrite Hsplit.
  assert (Hin_l : In (p, m) (g_LdrModuleList w_loaded))
    by exact (find_node_some_in _ _ _ Hm).
  assert (Hstep : preload_step p m = set_MarkedForPurge m).
  { unfold preload_step, dispatch_status. now rewrite Hunmarked, Hf, Hfail. }
  assert (Hfind : find_node p (preloaded (g_LdrModuleList w_loaded))
                  = Some (set_MarkedForPurge m)).
  { unfold preloaded. rewrite find_node_over_nodes.
    unfold lookup in Hm. rewrite Hm. simpl. now rewrite Hstep. }
  assert (Hev : In (EvHook Preinitialize p (f p (ImagePath m)))
                   (trace_of preload_trace (g_LdrModuleList w_loaded))).
  { unfold trace_of. apply in_flat_map. exists (p, m). split; [exact Hin_l|].
    simpl. unfold preload_trace, dispatch_trace.
    rewrite Hunmarked, Hf. now left. }
  split; [exact (attach_preload_loop_run w_loaded Hnd)|].
  split.
  { rewrite (MdpPurgeMarkedModules_run w_pre Hnd1).
    change (g_ArInitialImage w_pre) with (g_ArInitialImage w_loaded).
    rewrite Hi. reflexivity. }
  split; [now rewrite Hrun|].
  split; [exact Hev|].
  split; [exact Hfind|].
  split.
  { intros s' Hinit. rewrite <- Htr in Hinit. apply hooked_in in Hinit.
    rewrite (attach_dispatch_hooked Initialize host fuel w_loaded 1 _
               eq_refl Hnd Hi Hm0) in Hinit.
    rewrite hooked_preload in Hinit. simpl in Hinit.
    destruct (gate_opens host); [|contradiction].
    rewrite hooked_init in Hinit. simpl in Hinit.
    apply in_map_iff in Hinit. destruct Hinit as [[q m'] [Hq Hinit]].
    simpl in Hq. subst q. apply filter_In in Hinit.
    destruct Hinit as [Hinit Hruns].
    unfold preload_purged, purge_keep in Hinit. apply filter_In in Hinit.
    destruct Hinit as [Hinit _].
    apply (find_node_in_nodup _ _ _ Hnd1) in Hinit.
    rewrite Hfind in Hinit. injection Hinit as <-.
    simpl in Hruns. unfold hook_runs in Hruns. simpl in Hruns.
    rewrite andb_false_r in Hruns. discriminate. }
  split.
  { intros Hnot.
    assert (Hp : p <> 1) by (intros ->; apply Hnot; exact Hi).
    split.
    - apply in_unmapped. rewrite unmapped_purge. apply in_map_iff.
      exists (p, set_MarkedForPurge m). split; [reflexivity|].
      apply filter_In. split; [exact (find_node_some_in _ _ _ Hfind)|].
      unfold purgeable. simpl.
      destruct (Nat.eqb_spec p 1); [contradiction|reflexivity].
    - exact (proj2 (proj2 (preload_failure_general _ 1 p _ Hnd Hev Hfail Hp))). }
  split.
  { intros Hinit. rewrite Hi in Hinit. injection Hinit as <-. split.
    - rewrite in_unmapped, unmapped_purge. intros Hin.
      apply in_map_iff in Hin. destruct Hin as [[q m'] [Hq Hin]].
      simpl in Hq. subst q. apply filter_In in Hin. destruct Hin as [_ Hin].
      unfold purgeable in Hin. simpl in Hin.
      rewrite andb_false_r in Hin. discriminate.
    - unfold lookup. simpl. unfold preload_purged.
      now rewrite find_node_purge_keep. }
  intros q s Hq Hs. rewrite <- Htr in Hq.
  apply (dispatch_preinitialize_events host fuel w_loaded 1 _ q s Hnd Hi Hm0)
    in Hq.
  destruct (preload_hook_inv _ _ _ Hq) as (mq & fq & Hmq & Emark & Ef & Es).
  exists mq, fq. split; [|auto].
  unfold lookup. now apply find_node_in_nodup.
Qed.

Lemma failed_preload_is_marked_and_purged_witness :
  attach_core_setup sample_host initial_world = ([], Returned true sample_loaded) /\
  lookup 2 sample_loaded = Some sample_mod_A /\
  AurieSuccess (entry_fails 2 (ImagePath sample_mod_A)) = false /\
  exists t_pre w_pre t_purge w_purged t_rest out,
    attach_preload_loop sample_loaded = (t_pre, Returned tt w_pre) /\
    MdpPurgeMarkedModules w_pre = (t_purge, Returned Success w_purged) /\
    ArProcessAttach sample_host 5 initial_world
    = (t_pre ++ t_purge ++ t_rest, out) /\
    In (EvHook Preinitialize 2 ModuleInitializationFailed) t_pre /\
    lookup 2 w_pre = Some (set_MarkedForPurge sample_mod_A) /\
    (forall s', ~ In (EvHook Initialize 2 s') (t_pre ++ t_purge ++ t_rest)) /\
    In (EvUnmapImage 2) t_purge /\
    ~ In 2 (addrs w_purged).
Proof.
  split; [reflexivity|]. split; [reflexivity|]. split; [reflexivity|].
  destruct (failed_preload_is_marked_and_purged sample_host 5 sample_loaded
              2 sample_mod_A entry_fails
              eq_refl eq_refl eq_refl eq_refl eq_refl)
    as (t_pre & w_pre & t_purge & w_purged & t_rest & out &
        Hpre & Hpurge & Hrun & Hev & Hmark & Hinit & Hmod & _).
  exists t_pre, w_pre, t_purge, w_purged, t_rest, out.
  destruct Hmod as [Hun Hgone]; [discriminate|].
  repeat (split; [assumption|]). exact Hgone.
Defined.

(** The claim fails for the initial image: on a host whose own image
    exports a failing Preinitialize hook, that hook is called by the
    preload pass and answers a failure, yet record 1 is still linked
    after the purge. *)
Lemma initial_image_failed_preload_is_kept :
  ~ (forall p s,
       In (EvHook Preinitialize p s)
          (fst (ArProcessAttach sample_self_failing_host 5 initial_world)) ->
       AurieSuccess s = false ->
       ~ In p (addrs (world_after
                        (attach_preload_loop ;; MdpPurgeMarkedModules)
                        (world_after (attach_core_setup sample_self_failing_host)
                                     initial_world)))).
Proof.
  intros H.
  apply (H 1 ModuleInitializationFailed).
  - vm_compute. now left.
  - reflexivity.
  - vm_compute. now left.
Qed.
